(** * three_layer_dnn: a three-layer fully connected network trained by
      full-batch gradient descent

    Shallow embedding of [three_layer_dnn.ipynb].  The notebook works on
    two-dimensional numpy arrays of float64.  Array entries are modelled by
    the real numbers of the Standard Library: sums, products and quotients are
    exact, [exp] and [ln] are the real functions, and rounding, infinities and
    NaN are outside the model.  Shapes, broadcasting and the errors numpy
    raises on shape mismatches are modelled as numpy has them.  Two things
    numpy does are not modelled: the upper limit it puts on the size of an
    array, and the NaN it gives when an empty batch makes it divide by 0. *)

From Stdlib Require Import List ZArith Reals Lra Lia Bool Arith.
Import ListNotations.
Open Scope R_scope.

(** ** Exceptions and the error monad *)

(** The only exception the modelled fragment raises is numpy's [ValueError]
    (negative dimensions, shapes that cannot be broadcast or multiplied). *)
Inductive exn : Type := ValueError.

Inductive result (A : Type) : Type :=
| Ok (a : A)
| Raise (e : exn).
Arguments Ok {A} a.
Arguments Raise {A} e.

Definition bind {A B : Type} (c : result A) (k : A -> result B) : result B :=
  match c with
  | Ok a => k a
  | Raise e => Raise e
  end.

Notation "x <- c ;; k" := (bind c (fun x => k))
  (at level 61, c at next level, right associativity).
Notation "' pat <- c ;; k" := (bind c (fun x => match x with pat => k end))
  (at level 61, pat pattern, c at next level, right associativity).

(** ** The numpy fragment used by the notebook *)

Module Np.

(** A two-dimensional array: its shape and its rows. *)
Record ndarray : Type := mk_ndarray {
  nrows : nat;
  ncols : nat;
  data : list (list R)
}.

Definition shape (A : ndarray) : nat * nat := (nrows A, ncols A).

(** [A[i, j]] *)
Definition get (A : ndarray) (i j : nat) : R := nth j (nth i (data A) []) 0.

(** The array of shape [(r, c)] whose entry [(i, j)] is [f i j]. *)
Definition build (r c : nat) (f : nat -> nat -> R) : ndarray :=
  mk_ndarray r c (map (fun i => map (fun j => f i j) (seq 0 c)) (seq 0 r)).

(** The rows agree with the declared shape. *)
Definition wf (A : ndarray) : Prop :=
  length (data A) = nrows A /\ Forall (fun row => length row = ncols A) (data A).

(** [f 0 + f 1 + ... + f (n-1)] *)
Fixpoint rsum (n : nat) (f : nat -> R) : R :=
  match n with
  | O => 0
  | S k => rsum k f + f k
  end.

(** Elementwise application of a scalar function: [np.exp], [np.log],
    unary minus and the operations between a Python scalar and an array. *)
Definition map_arr (f : R -> R) (A : ndarray) : ndarray :=
  build (nrows A) (ncols A) (fun i j => f (get A i j)).

Definition neg : ndarray -> ndarray := map_arr Ropp.
Definition np_exp : ndarray -> ndarray := map_arr exp.
Definition np_log : ndarray -> ndarray := map_arr ln.
(** [c + A], [c - A], [c / A], [c * A], [A / c] for a scalar [c] *)
Definition scalar_add (c : R) : ndarray -> ndarray := map_arr (fun a => c + a).
Definition scalar_sub (c : R) : ndarray -> ndarray := map_arr (fun a => c - a).
Definition scalar_div (c : R) : ndarray -> ndarray := map_arr (fun a => c / a).
Definition scalar_mul (c : R) : ndarray -> ndarray := map_arr (fun a => c * a).
Definition div_scalar (A : ndarray) (c : R) : ndarray := map_arr (fun a => a / c) A.
Definition mul_scalar (A : ndarray) (c : R) : ndarray := map_arr (fun a => a * c) A.
(** [np.maximum(c, A)] *)
Definition maximum (c : R) : ndarray -> ndarray := map_arr (Rmax c).

(** [A > 0]: the boolean array, written with the values 1 and 0 that its
    entries take when the array is multiplied with a float array. *)
Definition gt0_entry (a : R) : R := if Rlt_dec 0 a then 1 else 0.
Definition gt0 : ndarray -> ndarray := map_arr gt0_entry.

(** Broadcasting of one axis: equal extents, or one of them is 1. *)
Definition bdim (a b : nat) : result nat :=
  if (a =? b)%nat then Ok a
  else if (a =? 1)%nat then Ok b
  else if (b =? 1)%nat then Ok a
  else Raise ValueError.

(** The index read along an axis of extent [n] when the result index is [i]. *)
Definition bidx (n i : nat) : nat := if (n =? 1)%nat then O else i.

Definition broadcast2 (f : R -> R -> R) (A B : ndarray) : result ndarray :=
  r <- bdim (nrows A) (nrows B) ;;
  c <- bdim (ncols A) (ncols B) ;;
  Ok (build r c (fun i j =>
        f (get A (bidx (nrows A) i) (bidx (ncols A) j))
          (get B (bidx (nrows B) i) (bidx (ncols B) j)))).

(** [A + B], [A - B], [A * B] (elementwise) *)
Definition add : ndarray -> ndarray -> result ndarray := broadcast2 Rplus.
Definition sub : ndarray -> ndarray -> result ndarray := broadcast2 Rminus.
Definition mul : ndarray -> ndarray -> result ndarray := broadcast2 Rmult.

(** [np.dot(A, B)] *)
Definition dot (A B : ndarray) : result ndarray :=
  if (ncols A =? nrows B)%nat
  then Ok (build (nrows A) (ncols B)
             (fun i j => rsum (ncols A) (fun k => get A i k * get B k j)))
  else Raise ValueError.

(** [A.T] *)
Definition transpose (A : ndarray) : ndarray :=
  build (ncols A) (nrows A) (fun i j => get A j i).

(** [np.sum(A, axis=1, keepdims=True)] *)
Definition sum_axis1_keepdims (A : ndarray) : ndarray :=
  build (nrows A) 1 (fun i _ => rsum (ncols A) (fun k => get A i k)).

(** [np.sum(A)] *)
Definition sum (A : ndarray) : R :=
  rsum (nrows A) (fun i => rsum (ncols A) (fun j => get A i j)).

(** The state of numpy's global random generator: the standard normal
    samples it will hand out, in order. *)
Definition rng : Type := nat -> R.

(** [np.random.randn(d0, d1)] *)
Definition randn (d0 d1 : Z) (g : rng) : result (ndarray * rng) :=
  if ((d0 <? 0) || (d1 <? 0))%Z then Raise ValueError
  else
    let r := Z.to_nat d0 in
    let c := Z.to_nat d1 in
    Ok (build r c (fun i j => g (i * c + j)%nat), fun k => g (r * c + k)%nat).

(** [np.zeros((d0, d1))] *)
Definition zeros (d0 d1 : Z) : result ndarray :=
  if ((d0 <? 0) || (d1 <? 0))%Z then Raise ValueError
  else Ok (build (Z.to_nat d0) (Z.to_nat d1) (fun _ _ => 0)).

End Np.

Import Np.

(** ** The notebook's functions *)

Definition sigmoid (z : ndarray) : ndarray :=
  scalar_div 1 (scalar_add 1 (np_exp (neg z))).

Definition relu (z : ndarray) : ndarray := maximum 0 z.

(** The tuple [W1, b1, W2, b2, W3, b3]. *)
Record params : Type := mk_params {
  W1 : ndarray; b1 : ndarray;
  W2 : ndarray; b2 : ndarray;
  W3 : ndarray; b3 : ndarray
}.

(** The tuple [dW1, db1, dW2, db2, dW3, db3]. *)
Record grads : Type := mk_grads {
  dW1 : ndarray; db1 : ndarray;
  dW2 : ndarray; db2 : ndarray;
  dW3 : ndarray; db3 : ndarray
}.

Definition initialize_parameters_3layer (n_x n_h1 n_h2 n_y : Z) (g : rng)
  : result (params * rng) :=
  '(r1, g) <- randn n_h1 n_x g ;;
  let W1' := mul_scalar r1 (/ 100) in
  b1' <- zeros n_h1 1 ;;
  '(r2, g) <- randn n_h2 n_h1 g ;;
  let W2' := mul_scalar r2 (/ 100) in
  b2' <- zeros n_h2 1 ;;
  '(r3, g) <- randn n_y n_h2 g ;;
  let W3' := mul_scalar r3 (/ 100) in
  b3' <- zeros n_y 1 ;;
  Ok (mk_params W1' b1' W2' b2' W3' b3', g).

(** The pre-activations are local variables of the forward pass. *)
Definition linear (W A b : ndarray) : result ndarray :=
  d <- dot W A ;; add d b.

Definition forward_propagation_3layer (X : ndarray) (P : params)
  : result (ndarray * ndarray * ndarray) :=
  Z1 <- linear (W1 P) X (b1 P) ;;
  let A1 := relu Z1 in
  Z2 <- linear (W2 P) A1 (b2 P) ;;
  let A2 := relu Z2 in
  Z3 <- linear (W3 P) A2 (b3 P) ;;
  let A3 := sigmoid Z3 in
  Ok (A1, A2, A3).

Definition compute_cost_3layer (A3 y : ndarray) : result R :=
  let m := ncols y in
  t1 <- mul y (np_log A3) ;;
  t2 <- mul (scalar_sub 1 y) (np_log (scalar_sub 1 A3)) ;;
  s <- add t1 t2 ;;
  Ok (- Np.sum s / INR m).

Definition backward_propagation_3layer (X y A1 A2 A3 W2 W3 : ndarray)
  : result grads :=
  let m := INR (ncols X) in
  dZ3 <- sub A3 y ;;
  p3 <- dot dZ3 (transpose A2) ;;
  let dW3 := div_scalar p3 m in
  let db3 := div_scalar (sum_axis1_keepdims dZ3) m in
  q2 <- dot (transpose W3) dZ3 ;;
  dZ2 <- mul q2 (gt0 A2) ;;
  p2 <- dot dZ2 (transpose A1) ;;
  let dW2 := div_scalar p2 m in
  let db2 := div_scalar (sum_axis1_keepdims dZ2) m in
  q1 <- dot (transpose W2) dZ2 ;;
  dZ1 <- mul q1 (gt0 A1) ;;
  p1 <- dot dZ1 (transpose X) ;;
  let dW1 := div_scalar p1 m in
  let db1 := div_scalar (sum_axis1_keepdims dZ1) m in
  Ok (mk_grads dW1 db1 dW2 db2 dW3 db3).

Definition update_parameters_3layer (P : params) (G : grads) (learning_rate : R)
  : result params :=
  W1' <- sub (W1 P) (scalar_mul learning_rate (dW1 G)) ;;
  b1' <- sub (b1 P) (scalar_mul learning_rate (db1 G)) ;;
  W2' <- sub (W2 P) (scalar_mul learning_rate (dW2 G)) ;;
  b2' <- sub (b2 P) (scalar_mul learning_rate (db2 G)) ;;
  W3' <- sub (W3 P) (scalar_mul learning_rate (dW3 G)) ;;
  b3' <- sub (b3 P) (scalar_mul learning_rate (db3 G)) ;;
  Ok (mk_params W1' b1' W2' b2' W3' b3').

(** The variables the training loop carries from one epoch to the next, and
    the lines it has printed: [(i, cost)] stands for the line
    [Cost after iteration i: cost]. *)
Record loop_state : Type := mk_loop_state {
  ls_params : params;
  ls_costs : list R;
  ls_stdout : list (nat * R)
}.

(** The body of [for i in range(epochs)]. *)
Definition epoch_body (X y : ndarray) (learning_rate : R) (i : nat) (s : loop_state)
  : result loop_state :=
  let P := ls_params s in
  '(A1, A2, A3) <- forward_propagation_3layer X P ;;
  cost <- compute_cost_3layer A3 y ;;
  G <- backward_propagation_3layer X y A1 A2 A3 (W2 P) (W3 P) ;;
  P' <- update_parameters_3layer P G learning_rate ;;
  if (i mod 100 =? 0)%nat
  then Ok (mk_loop_state P' (ls_costs s ++ [cost]) (ls_stdout s ++ [(i, cost)]))
  else Ok (mk_loop_state P' (ls_costs s) (ls_stdout s)).

Fixpoint for_range {S : Type} (body : nat -> S -> result S) (range : list nat) (s : S)
  : result S :=
  match range with
  | [] => Ok s
  | i :: rest => s' <- body i s ;; for_range body rest s'
  end.

(** [train_three_layer(X, y, n_h1, n_h2, learning_rate, epochs)]; the result
    also carries what was printed and the generator's final state. *)
Definition train_three_layer (X y : ndarray) (n_h1 n_h2 : Z) (learning_rate : R)
    (epochs : Z) (g : rng) : result (params * list R * list (nat * R) * rng) :=
  let n_x := Z.of_nat (nrows X) in
  let n_y := Z.of_nat (nrows y) in
  '(P, g) <- initialize_parameters_3layer n_x n_h1 n_h2 n_y g ;;
  s <- for_range (epoch_body X y learning_rate) (seq 0 (Z.to_nat epochs))
         (mk_loop_state P [] []) ;;
  Ok (ls_params s, ls_costs s, ls_stdout s, g).

(** ** Arrays as objects in a store

    Python variables hold references to array objects.  To speak about
    mutation, cost computation, backward propagation and the update are also
    given at the level of the store: every numpy operation reads its operands
    and allocates the array it returns ([A.T] allocates the view object). *)

Module Store.

Definition ref : Type := nat.
Definition heap : Type := list ndarray.

Definition empty_array : ndarray := mk_ndarray 0 0 [].
Definition deref (h : heap) (r : ref) : ndarray := nth r h empty_array.

Definition ST (A : Type) : Type := heap -> result (A * heap).

Definition ret {A : Type} (a : A) : ST A := fun h => Ok (a, h).

Definition sbind {A B : Type} (c : ST A) (k : A -> ST B) : ST B :=
  fun h => match c h with
           | Ok (a, h') => k a h'
           | Raise e => Raise e
           end.

Definition alloc (a : ndarray) : ST ref := fun h => Ok (length h, h ++ [a]).

(** An operation that cannot fail, and one that can. *)
Definition op1 (f : ndarray -> ndarray) (r : ref) : ST ref :=
  fun h => alloc (f (deref h r)) h.

Definition op2 (f : ndarray -> ndarray -> result ndarray) (r1 r2 : ref) : ST ref :=
  fun h => match f (deref h r1) (deref h r2) with
           | Ok a => alloc a h
           | Raise e => Raise e
           end.

(** Reading a scalar out of an array. *)
Definition read {A : Type} (f : ndarray -> A) (r : ref) : ST A :=
  fun h => Ok (f (deref h r), h).

Notation "x <~ c ;; k" := (sbind c (fun x => k))
  (at level 61, c at next level, right associativity).

Record params_ref : Type := mk_params_ref {
  rW1 : ref; rb1 : ref; rW2 : ref; rb2 : ref; rW3 : ref; rb3 : ref
}.

Record grads_ref : Type := mk_grads_ref {
  rdW1 : ref; rdb1 : ref; rdW2 : ref; rdb2 : ref; rdW3 : ref; rdb3 : ref
}.

Definition deref_params (h : heap) (p : params_ref) : params :=
  mk_params (deref h (rW1 p)) (deref h (rb1 p)) (deref h (rW2 p))
            (deref h (rb2 p)) (deref h (rW3 p)) (deref h (rb3 p)).

Definition deref_grads (h : heap) (g : grads_ref) : grads :=
  mk_grads (deref h (rdW1 g)) (deref h (rdb1 g)) (deref h (rdW2 g))
           (deref h (rdb2 g)) (deref h (rdW3 g)) (deref h (rdb3 g)).

Definition params_valid (h : heap) (p : params_ref) : Prop :=
  (rW1 p < length h /\ rb1 p < length h /\ rW2 p < length h /\
   rb2 p < length h /\ rW3 p < length h /\ rb3 p < length h)%nat.

Definition grads_valid (h : heap) (g : grads_ref) : Prop :=
  (rdW1 g < length h /\ rdb1 g < length h /\ rdW2 g < length h /\
   rdb2 g < length h /\ rdW3 g < length h /\ rdb3 g < length h)%nat.

Definition compute_cost_3layer (A3 y : ref) : ST R :=
  m <~ read ncols y ;;
  l1 <~ op1 np_log A3 ;;
  t1 <~ op2 mul y l1 ;;
  u <~ op1 (scalar_sub 1) y ;;
  v <~ op1 (scalar_sub 1) A3 ;;
  l2 <~ op1 np_log v ;;
  t2 <~ op2 mul u l2 ;;
  s <~ op2 add t1 t2 ;;
  total <~ read Np.sum s ;;
  ret (- total / INR m).

Definition backward_propagation_3layer (X y A1 A2 A3 W2 W3 : ref) : ST grads_ref :=
  n <~ read ncols X ;;
  let m := INR n in
  dZ3 <~ op2 sub A3 y ;;
  A2T <~ op1 transpose A2 ;;
  p3 <~ op2 dot dZ3 A2T ;;
  dW3 <~ op1 (fun a => div_scalar a m) p3 ;;
  s3 <~ op1 sum_axis1_keepdims dZ3 ;;
  db3 <~ op1 (fun a => div_scalar a m) s3 ;;
  W3T <~ op1 transpose W3 ;;
  q2 <~ op2 dot W3T dZ3 ;;
  k2 <~ op1 gt0 A2 ;;
  dZ2 <~ op2 mul q2 k2 ;;
  A1T <~ op1 transpose A1 ;;
  p2 <~ op2 dot dZ2 A1T ;;
  dW2 <~ op1 (fun a => div_scalar a m) p2 ;;
  s2 <~ op1 sum_axis1_keepdims dZ2 ;;
  db2 <~ op1 (fun a => div_scalar a m) s2 ;;
  W2T <~ op1 transpose W2 ;;
  q1 <~ op2 dot W2T dZ2 ;;
  k1 <~ op1 gt0 A1 ;;
  dZ1 <~ op2 mul q1 k1 ;;
  XT <~ op1 transpose X ;;
  p1 <~ op2 dot dZ1 XT ;;
  dW1 <~ op1 (fun a => div_scalar a m) p1 ;;
  s1 <~ op1 sum_axis1_keepdims dZ1 ;;
  db1 <~ op1 (fun a => div_scalar a m) s1 ;;
  ret (mk_grads_ref dW1 db1 dW2 db2 dW3 db3).

Definition update_parameters_3layer (P : params_ref) (G : grads_ref) (learning_rate : R)
  : ST params_ref :=
  t <~ op1 (scalar_mul learning_rate) (rdW1 G) ;;
  W1' <~ op2 sub (rW1 P) t ;;
  t <~ op1 (scalar_mul learning_rate) (rdb1 G) ;;
  b1' <~ op2 sub (rb1 P) t ;;
  t <~ op1 (scalar_mul learning_rate) (rdW2 G) ;;
  W2' <~ op2 sub (rW2 P) t ;;
  t <~ op1 (scalar_mul learning_rate) (rdb2 G) ;;
  b2' <~ op2 sub (rb2 P) t ;;
  t <~ op1 (scalar_mul learning_rate) (rdW3 G) ;;
  W3' <~ op2 sub (rW3 P) t ;;
  t <~ op1 (scalar_mul learning_rate) (rdb3 G) ;;
  b3' <~ op2 sub (rb3 P) t ;;
  ret (mk_params_ref W1' b1' W2' b2' W3' b3').

(** [h'] keeps every object of [h] and adds new ones behind them. *)
Definition extends (h h' : heap) : Prop := exists ext, h' = h ++ ext.

(** The references of a returned parameter set point to objects that did not
    exist in [h]. *)
Definition params_fresh (h : heap) (p : params_ref) : Prop :=
  (length h <= rW1 p /\ length h <= rb1 p /\ length h <= rW2 p /\
   length h <= rb2 p /\ length h <= rW3 p /\ length h <= rb3 p)%nat.

End Store.

(** ** Closed forms of the specification

    The formulas of the design document, entry by entry.  They are compared
    with what the notebook's functions compute. *)

(** [Z = W . A_prev + b], the bias broadcast across the columns. *)
Definition spec_linear (W A_prev b : ndarray) : ndarray :=
  build (nrows W) (ncols A_prev)
    (fun i j => rsum (ncols W) (fun k => get W i k * get A_prev k j) + get b i 0).

(** [ReLU(z) = max(0, z)] and [sigmoid(z) = 1 / (1 + e^-z)], elementwise. *)
Definition spec_relu (Z : ndarray) : ndarray :=
  build (nrows Z) (ncols Z) (fun i j => Rmax 0 (get Z i j)).

Definition spec_sigmoid (Z : ndarray) : ndarray :=
  build (nrows Z) (ncols Z) (fun i j => 1 / (1 + exp (- get Z i j))).

(** [ReLU'(z) = 1] if [z > 0], else [0]. *)
Definition spec_relu_grad (z : R) : R := if Rlt_dec 0 z then 1 else 0.

(** [dZ[L] = A[L] - y] *)
Definition spec_dZ_out (A_L y : ndarray) : ndarray :=
  build (nrows A_L) (ncols A_L) (fun i j => get A_L i j - get y i j).

(** [dZ = (W_next^T . dZ_next) (.) ReLU'(S)], the mask taken from [S]. *)
Definition spec_dZ_hidden (W_next dZ_next S : ndarray) : ndarray :=
  build (nrows S) (ncols S)
    (fun i j => rsum (nrows W_next) (fun k => get W_next k i * get dZ_next k j)
                * spec_relu_grad (get S i j)).

(** [dW = (1/m) . dZ . A_prev^T] and [db = (1/m) . sum of the columns of dZ] *)
Definition spec_dW (m : nat) (dZ A_prev : ndarray) : ndarray :=
  build (nrows dZ) (nrows A_prev)
    (fun i j => 1 / INR m * rsum m (fun k => get dZ i k * get A_prev j k)).

Definition spec_db (m : nat) (dZ : ndarray) : ndarray :=
  build (nrows dZ) 1 (fun i _ => 1 / INR m * rsum m (fun k => get dZ i k)).

(** [J = -(1/m) . sum_i (y_i log a_i + (1 - y_i) log (1 - a_i))] *)
Definition spec_cost (m : nat) (A_L y : ndarray) : R :=
  - (1 / INR m) *
  rsum m (fun i => get y 0 i * ln (get A_L 0 i)
                   + (1 - get y 0 i) * ln (1 - get A_L 0 i)).

(** [W - alpha . dW] *)
Definition spec_step (alpha : R) (W dW : ndarray) : ndarray :=
  build (nrows W) (ncols W) (fun i j => get W i j - alpha * get dW i j).

(** Shapes of a parameter set for the widths [n0, n1, n2, n3]. *)
Definition params_shape (n0 n1 n2 n3 : nat) (P : params) : Prop :=
  shape (W1 P) = (n1, n0) /\ shape (b1 P) = (n1, 1%nat) /\
  shape (W2 P) = (n2, n1) /\ shape (b2 P) = (n2, 1%nat) /\
  shape (W3 P) = (n3, n2) /\ shape (b3 P) = (n3, 1%nat).

Definition grads_shape (n0 n1 n2 n3 : nat) (G : grads) : Prop :=
  shape (dW1 G) = (n1, n0) /\ shape (db1 G) = (n1, 1%nat) /\
  shape (dW2 G) = (n2, n1) /\ shape (db2 G) = (n2, 1%nat) /\
  shape (dW3 G) = (n3, n2) /\ shape (db3 G) = (n3, 1%nat).

(** The three pre-activations of a forward pass, as the specification has
    them, and the post-activations they give. *)
Definition spec_Z1 (X : ndarray) (P : params) : ndarray :=
  spec_linear (W1 P) X (b1 P).
Definition spec_A1 (X : ndarray) (P : params) : ndarray :=
  spec_relu (spec_Z1 X P).
Definition spec_Z2 (X : ndarray) (P : params) : ndarray :=
  spec_linear (W2 P) (spec_A1 X P) (b2 P).
Definition spec_A2 (X : ndarray) (P : params) : ndarray :=
  spec_relu (spec_Z2 X P).
Definition spec_Z3 (X : ndarray) (P : params) : ndarray :=
  spec_linear (W3 P) (spec_A2 X P) (b3 P).
Definition spec_A3 (X : ndarray) (P : params) : ndarray :=
  spec_sigmoid (spec_Z3 X P).

(** The gradients of a backward pass in closed form, for any cache of
    matching shapes. *)
Definition spec_grads (X y A1 A2 A3 W2 W3 : ndarray) : grads :=
  let m := ncols X in
  let dZ3 := spec_dZ_out A3 y in
  let dZ2 := spec_dZ_hidden W3 dZ3 A2 in
  let dZ1 := spec_dZ_hidden W2 dZ2 A1 in
  mk_grads (spec_dW m dZ1 X) (spec_db m dZ1)
           (spec_dW m dZ2 A1) (spec_db m dZ2)
           (spec_dW m dZ3 A2) (spec_db m dZ3).

Definition cache_shape (n0 n1 n2 n3 m : nat) (X y A1 A2 A3 : ndarray) : Prop :=
  shape X = (n0, m) /\ shape y = (n3, m) /\
  shape A1 = (n1, m) /\ shape A2 = (n2, m) /\ shape A3 = (n3, m).

(** The parameters after one gradient step, in closed form. *)
Definition spec_update (P : params) (G : grads) (alpha : R) : params :=
  mk_params (spec_step alpha (W1 P) (dW1 G)) (spec_step alpha (b1 P) (db1 G))
            (spec_step alpha (W2 P) (dW2 G)) (spec_step alpha (b2 P) (db2 G))
            (spec_step alpha (W3 P) (dW3 G)) (spec_step alpha (b3 P) (db3 G)).

(** The parameter transition of one epoch: forward, backward, update. *)
Definition epoch_params (X y : ndarray) (alpha : R) (P : params) : result params :=
  '(A1, A2, A3) <- forward_propagation_3layer X P ;;
  G <- backward_propagation_3layer X y A1 A2 A3 (W2 P) (W3 P) ;;
  update_parameters_3layer P G alpha.

(** The cost of a parameter set: forward, then cost. *)
Definition cost_of (X y : ndarray) (P : params) : result R :=
  '(A1, A2, A3) <- forward_propagation_3layer X P ;;
  compute_cost_3layer A3 y.

(** The parameters after [k] epochs, each run on the result of the one before. *)
Fixpoint params_after (X y : ndarray) (alpha : R) (P0 : params) (k : nat)
  : result params :=
  match k with
  | O => Ok P0
  | S k' => P <- params_after X y alpha P0 k' ;; epoch_params X y alpha P
  end.

(** The cost computed in epoch [k]: on the parameters that [k] epochs left,
    before the update of epoch [k]. *)
Definition cost_at (X y : ndarray) (alpha : R) (P0 : params) (k : nat) : result R :=
  P <- params_after X y alpha P0 k ;; cost_of X y P.

(** The epochs in [0 .. n-1] whose cost is recorded. *)
Definition sampled (n : nat) : list nat :=
  filter (fun i => (i mod 100 =? 0)%nat) (seq 0 n).

(** What the loop has established after [n] iterations. *)
Definition loop_inv (X y : ndarray) (alpha : R) (P0 : params) (n0 n1 n2 n3 : nat)
    (n : nat) (s : loop_state) : Prop :=
  params_after X y alpha P0 n = Ok (ls_params s)
  /\ params_shape n0 n1 n2 n3 (ls_params s)
  /\ Forall2 (fun i c => cost_at X y alpha P0 i = Ok c) (sampled n) (ls_costs s)
  /\ ls_stdout s = combine (sampled n) (ls_costs s).

(** ** Concrete networks

    A network of widths 2, 2, 1, 1 on a batch of two samples, and two networks
    of widths 1, 1, 1, 1 that differ in their first weight only. *)

Definition ex_X : ndarray := mk_ndarray 2 2 [[1; 2]; [3; 4]].
Definition ex_y : ndarray := mk_ndarray 1 2 [[1; 0]].
Definition ex_P : params :=
  mk_params (mk_ndarray 2 2 [[1; -1]; [0; 1]]) (mk_ndarray 2 1 [[0]; [0]])
            (mk_ndarray 1 2 [[1; 1]]) (mk_ndarray 1 1 [[0]])
            (mk_ndarray 1 1 [[1]]) (mk_ndarray 1 1 [[0]]).
Definition ex_A1 : ndarray := mk_ndarray 2 2 [[0; 1]; [3; 0]].
Definition ex_A2 : ndarray := mk_ndarray 1 2 [[3; 1]].
Definition ex_A3 : ndarray := mk_ndarray 1 2 [[/ 2; / 4]].
Definition ex_G : grads :=
  mk_grads (mk_ndarray 2 2 [[1; 1]; [1; 1]]) (mk_ndarray 2 1 [[1]; [1]])
           (mk_ndarray 1 2 [[1; 1]]) (mk_ndarray 1 1 [[1]])
           (mk_ndarray 1 1 [[1]]) (mk_ndarray 1 1 [[1]]).

(** A store holding the example: parameters at 0..5, gradients at 6..11,
    then [X], [y] and a cache. *)
Definition ex_heap : Store.heap :=
  [W1 ex_P; b1 ex_P; W2 ex_P; b2 ex_P; W3 ex_P; b3 ex_P;
   dW1 ex_G; db1 ex_G; dW2 ex_G; db2 ex_G; dW3 ex_G; db3 ex_G;
   ex_X; ex_y; ex_A1; ex_A2; ex_A3].
Definition ex_Pr : Store.params_ref := Store.mk_params_ref 0%nat 1%nat 2%nat 3%nat 4%nat 5%nat.
Definition ex_Gr : Store.grads_ref := Store.mk_grads_ref 6%nat 7%nat 8%nat 9%nat 10%nat 11%nat.

Definition one (a : R) : ndarray := mk_ndarray 1 1 [[a]].

Definition tiny_X : ndarray := one 1.
Definition tiny_Pa : params := mk_params (one (-1)) (one 0) (one 1) (one 0) (one 1) (one 0).
Definition tiny_Pb : params := mk_params (one (-2)) (one 0) (one 1) (one 0) (one 1) (one 0).
Definition tiny_G : grads := mk_grads (one 1) (one 1) (one 1) (one 1) (one 1) (one 1).

(** A generator that hands out zeros. *)
Definition rng0 : rng := fun _ => 0.

(** ** The notebook's data cell and run cell

    The first cell draws the inputs and labels them; the last one trains on
    them with four and three hidden units and the default learning rate and
    epoch count.  One-dimensional arrays are lists.  The seed fixes the state
    of the generator, which is the argument [g]; plotting is left out. *)

(** [X[i, :]]; the cell uses it with the rows 0 and 1 of a two-row array. *)
Definition row_slice (X : ndarray) (i : nat) : list R :=
  map (fun j => get X i j) (seq 0 (ncols X)).

(** [u + v] on one-dimensional arrays *)
Definition add_1d (u v : list R) : result (list R) :=
  n <- bdim (length u) (length v) ;;
  Ok (map (fun j => nth (bidx (length u) j) u 0 + nth (bidx (length v) j) v 0)
          (seq 0 n)).

(** [np.where(s > 0, 1, 0)] *)
Definition where_gt0 (s : list R) : list R :=
  map (fun a => if Rlt_dec 0 a then 1 else 0) s.

(** [l.reshape(r, c)] of a one-dimensional array *)
Definition reshape_1d (l : list R) (r c : nat) : result ndarray :=
  if (length l =? r * c)%nat
  then Ok (build r c (fun i j => nth (i * c + j) l 0))
  else Raise ValueError.

Definition generate_data (g : rng) : result (ndarray * ndarray * rng) :=
  '(X, g) <- randn 2 400 g ;;
  s <- add_1d (row_slice X 0) (row_slice X 1) ;;
  y <- reshape_1d (where_gt0 s) 1 400 ;;
  Ok (X, y, g).

Definition run_model (g : rng) : result (params * list R * list (nat * R) * rng) :=
  '(X, y, g) <- generate_data g ;;
  train_three_layer X y 4 3 (/ 100) 3000 g.

(** Two shapes that numpy cannot broadcast against each other: the row
    counts or the column counts differ and neither of the two is 1. *)
Definition cannot_broadcast (A B : ndarray) : Prop :=
  (nrows A <> nrows B /\ nrows A <> 1%nat /\ nrows B <> 1%nat)
  \/ (ncols A <> ncols B /\ ncols A <> 1%nat /\ ncols B <> 1%nat).

(** An array all of whose entries are 0. *)
Definition all_zero (A : ndarray) : Prop :=
  forall i j, (i < nrows A)%nat -> (j < ncols A)%nat -> get A i j = 0.

(** Every entry lies in the closed unit interval, as labels do. *)
Definition unit_entries (A : ndarray) : Prop :=
  forall i j, (i < nrows A)%nat -> (j < ncols A)%nat -> 0 <= get A i j <= 1.

Definition params_wf (P : params) : Prop :=
  wf (W1 P) /\ wf (b1 P) /\ wf (W2 P) /\ wf (b2 P) /\ wf (W3 P) /\ wf (b3 P).

(** ** Arrays: entries, shapes and sums *)

Lemma get_build (r c : nat) (f : nat -> nat -> R) (i j : nat) :
  (i < r)%nat -> (j < c)%nat -> get (build r c f) i j = f i j.
Proof.
  intros Hi Hj. unfold get, build. cbn [data].
  rewrite (nth_indep _ [] (map (fun j0 => f O j0) (seq 0 c)))
    by (rewrite length_map, length_seq; exact Hi).
  rewrite (map_nth (fun i0 => map (fun j0 => f i0 j0) (seq 0 c)) (seq 0 r) O i).
  rewrite seq_nth by exact Hi. cbn [Nat.add].
  rewrite (nth_indep _ 0 (f i O)) by (rewrite length_map, length_seq; exact Hj).
  rewrite (map_nth (fun j0 => f i j0) (seq 0 c) O j).
  rewrite seq_nth by exact Hj. reflexivity.
Qed.

Lemma build_ext (r c : nat) (f g : nat -> nat -> R) :
  (forall i j, (i < r)%nat -> (j < c)%nat -> f i j = g i j) ->
  build r c f = build r c g.
Proof.
  intros H. unfold build. f_equal.
  apply map_ext_in. intros i Hi. apply in_seq in Hi.
  apply map_ext_in. intros j Hj. apply in_seq in Hj.
  apply H; lia.
Qed.

Lemma wf_build (r c : nat) (f : nat -> nat -> R) : wf (build r c f).
Proof.
  unfold wf, build. cbn [data nrows ncols]. split.
  - now rewrite length_map, length_seq.
  - apply Forall_forall. intros row Hrow.
    apply in_map_iff in Hrow. destruct Hrow as [i [<- _]].
    now rewrite length_map, length_seq.
Qed.

Lemma rsum_ext (n : nat) (f g : nat -> R) :
  (forall k, (k < n)%nat -> f k = g k) -> rsum n f = rsum n g.
Proof.
  induction n as [|n IH]; intros H; cbn [rsum].
  - reflexivity.
  - rewrite IH by (intros k Hk; apply H; lia). rewrite H by lia. reflexivity.
Qed.

Lemma rsum_div (n : nat) (f : nat -> R) (c : R) :
  rsum n f / c = 1 / c * rsum n f.
Proof. unfold Rdiv. ring. Qed.

Lemma bdim_same (a : nat) : bdim a a = Ok a.
Proof. unfold bdim. now rewrite Nat.eqb_refl. Qed.

Lemma bdim_one_r (a : nat) : bdim a 1 = Ok a.
Proof.
  unfold bdim. destruct (a =? 1)%nat eqn:E; [reflexivity|].
  now rewrite Nat.eqb_refl.
Qed.

Lemma bidx_lt (n i : nat) : (i < n)%nat -> bidx n i = i.
Proof.
  intros H. unfold bidx. destruct (n =? 1)%nat eqn:E; [|reflexivity].
  apply Nat.eqb_eq in E. lia.
Qed.

(** Operands of equal shape: the operation is applied entry by entry. *)
Lemma broadcast2_same (f : R -> R -> R) (A B : ndarray) :
  nrows B = nrows A -> ncols B = ncols A ->
  broadcast2 f A B
  = Ok (build (nrows A) (ncols A) (fun i j => f (get A i j) (get B i j))).
Proof.
  intros Hr Hc. unfold broadcast2. rewrite Hr, Hc, !bdim_same. cbn [bind].
  f_equal. apply build_ext. intros i j Hi Hj. now rewrite !bidx_lt.
Qed.

(** A column vector on the right is broadcast across the columns. *)
Lemma broadcast2_column (f : R -> R -> R) (A b : ndarray) :
  nrows b = nrows A -> ncols b = 1%nat ->
  broadcast2 f A b
  = Ok (build (nrows A) (ncols A) (fun i j => f (get A i j) (get b i 0))).
Proof.
  intros Hr Hc. unfold broadcast2. rewrite Hr, Hc, bdim_same, bdim_one_r.
  cbn [bind]. f_equal. apply build_ext. intros i j Hi Hj.
  rewrite !bidx_lt by assumption. reflexivity.
Qed.

Lemma dot_ok (A B : ndarray) :
  ncols A = nrows B ->
  dot A B = Ok (build (nrows A) (ncols B)
                  (fun i j => rsum (ncols A) (fun k => get A i k * get B k j))).
Proof. intros H. unfold dot. now rewrite H, Nat.eqb_refl. Qed.

Lemma shape_inv (A : ndarray) (r c : nat) :
  shape A = (r, c) -> nrows A = r /\ ncols A = c.
Proof. unfold shape. intros H. now inversion H. Qed.

Ltac shapes :=
  repeat match goal with
         | H : shape _ = (_, _) |- _ => apply shape_inv in H; destruct H as [? ?]
         end.

(** ** Forward propagation *)

Lemma relu_spec (Z : ndarray) : relu Z = spec_relu Z.
Proof. reflexivity. Qed.

Lemma sigmoid_spec (Z : ndarray) : sigmoid Z = spec_sigmoid Z.
Proof.
  unfold sigmoid, spec_sigmoid, scalar_div, scalar_add, np_exp, neg, map_arr.
  cbn [nrows ncols build]. apply build_ext. intros i j Hi Hj.
  now rewrite !get_build by assumption.
Qed.

Lemma linear_ok (W A b : ndarray) (n k m : nat) :
  shape W = (n, k) -> shape A = (k, m) -> shape b = (n, 1%nat) ->
  linear W A b = Ok (spec_linear W A b).
Proof.
  intros HW HA Hb. shapes. unfold linear.
  rewrite dot_ok by congruence. cbn [bind]. unfold add.
  rewrite broadcast2_column by (cbn [nrows ncols build]; congruence).
  cbn [nrows ncols build]. unfold spec_linear. f_equal.
  apply build_ext. intros i j Hi Hj. now rewrite get_build by assumption.
Qed.

Lemma shape_spec_A1 (X : ndarray) (P : params) (n0 n1 n2 n3 m : nat) :
  params_shape n0 n1 n2 n3 P -> shape X = (n0, m) -> shape (spec_A1 X P) = (n1, m).
Proof.
  intros (H1 & _) HX. shapes. unfold spec_A1, spec_Z1, shape.
  cbn [nrows ncols spec_relu spec_linear build]. congruence.
Qed.

Lemma shape_spec_A2 (X : ndarray) (P : params) (n0 n1 n2 n3 m : nat) :
  params_shape n0 n1 n2 n3 P -> shape X = (n0, m) -> shape (spec_A2 X P) = (n2, m).
Proof.
  intros (_ & _ & H2 & _) HX. shapes. unfold spec_A2, spec_Z2, spec_A1, spec_Z1, shape.
  cbn [nrows ncols spec_relu spec_linear build]. congruence.
Qed.

Lemma shape_spec_A3 (X : ndarray) (P : params) (n0 n1 n2 n3 m : nat) :
  params_shape n0 n1 n2 n3 P -> shape X = (n0, m) -> shape (spec_A3 X P) = (n3, m).
Proof.
  intros (_ & _ & _ & _ & H3 & _) HX. shapes.
  unfold spec_A3, spec_Z3, spec_A2, spec_Z2, spec_A1, spec_Z1, shape.
  cbn [nrows ncols spec_relu spec_sigmoid spec_linear build]. congruence.
Qed.

(** On inputs of matching shapes the forward pass succeeds and returns the
    three post-activations of the specification. *)
Lemma forward_ok (X : ndarray) (P : params) (n0 n1 n2 n3 m : nat) :
  params_shape n0 n1 n2 n3 P -> shape X = (n0, m) ->
  forward_propagation_3layer X P = Ok (spec_A1 X P, spec_A2 X P, spec_A3 X P).
Proof.
  intros HP HX.
  pose proof (shape_spec_A1 X P n0 n1 n2 n3 m HP HX) as HA1.
  pose proof (shape_spec_A2 X P n0 n1 n2 n3 m HP HX) as HA2.
  destruct HP as (HW1 & Hb1 & HW2 & Hb2 & HW3 & Hb3).
  unfold forward_propagation_3layer.
  rewrite (linear_ok (W1 P) X (b1 P) n1 n0 m) by assumption. cbn [bind].
  rewrite relu_spec. fold (spec_Z1 X P). fold (spec_A1 X P).
  rewrite (linear_ok (W2 P) (spec_A1 X P) (b2 P) n2 n1 m) by assumption. cbn [bind].
  rewrite relu_spec. fold (spec_Z2 X P). fold (spec_A2 X P).
  rewrite (linear_ok (W3 P) (spec_A2 X P) (b3 P) n3 n2 m) by assumption. cbn [bind].
  rewrite sigmoid_spec. reflexivity.
Qed.

(** ** Backward propagation *)

Lemma build_eq (r c r' c' : nat) (f g : nat -> nat -> R) :
  r = r' -> c = c' ->
  (forall i j, (i < r)%nat -> (j < c)%nat -> f i j = g i j) ->
  build r c f = build r' c' g.
Proof. intros <- <- H. now apply build_ext. Qed.

Lemma dZ_out_ok (A_L y : ndarray) :
  nrows y = nrows A_L -> ncols y = ncols A_L ->
  sub A_L y = Ok (spec_dZ_out A_L y).
Proof. intros Hr Hc. unfold sub. now rewrite broadcast2_same. Qed.

Lemma dW_ok (dZ A_prev : ndarray) (m : nat) :
  ncols dZ = m -> ncols A_prev = m ->
  exists p, dot dZ (transpose A_prev) = Ok p
            /\ div_scalar p (INR m) = spec_dW m dZ A_prev.
Proof.
  intros HdZ HA. eexists. split.
  - apply dot_ok. cbn [transpose nrows build]. congruence.
  - unfold div_scalar, map_arr, spec_dW, transpose. cbn [nrows ncols build].
    apply build_ext. intros i j Hi Hj.
    rewrite get_build by assumption. rewrite rsum_div, HdZ. f_equal.
    apply rsum_ext. intros k Hk. rewrite get_build by lia. reflexivity.
Qed.

Lemma db_ok (dZ : ndarray) (m : nat) :
  ncols dZ = m ->
  div_scalar (sum_axis1_keepdims dZ) (INR m) = spec_db m dZ.
Proof.
  intros HdZ. unfold div_scalar, map_arr, spec_db, sum_axis1_keepdims.
  cbn [nrows ncols build]. apply build_ext. intros i j Hi Hj.
  rewrite get_build by assumption. now rewrite rsum_div, HdZ.
Qed.

Lemma dZ_hidden_ok (W_next dZ_next A : ndarray) :
  nrows W_next = nrows dZ_next -> ncols W_next = nrows A ->
  ncols dZ_next = ncols A ->
  exists q, dot (transpose W_next) dZ_next = Ok q
            /\ mul q (gt0 A) = Ok (spec_dZ_hidden W_next dZ_next A).
Proof.
  intros Hk Hr Hc. eexists. split.
  - apply dot_ok. cbn [transpose ncols build]. exact Hk.
  - unfold mul. rewrite broadcast2_same
      by (unfold gt0, map_arr, transpose; cbn [nrows ncols build]; congruence).
    unfold spec_dZ_hidden, gt0, map_arr, transpose. cbn [nrows ncols build].
    f_equal. apply build_eq; [assumption .. |]. intros i j Hi Hj.
    rewrite !get_build by lia. f_equal.
    apply rsum_ext. intros k Hk'. rewrite get_build by lia. reflexivity.
Qed.

Lemma backward_ok (X y A1 A2 A3 W2 W3 : ndarray) (n0 n1 n2 n3 m : nat) :
  cache_shape n0 n1 n2 n3 m X y A1 A2 A3 ->
  shape W2 = (n2, n1) -> shape W3 = (n3, n2) ->
  backward_propagation_3layer X y A1 A2 A3 W2 W3
  = Ok (spec_grads X y A1 A2 A3 W2 W3).
Proof.
  intros (HX & Hy & HA1 & HA2 & HA3) HW2 HW3. shapes.
  unfold backward_propagation_3layer, spec_grads. cbv zeta.
  set (dZ3 := spec_dZ_out A3 y).
  set (dZ2 := spec_dZ_hidden W3 dZ3 A2).
  set (dZ1 := spec_dZ_hidden W2 dZ2 A1).
  assert (E3 : ncols dZ3 = ncols X /\ nrows dZ3 = n3)
    by (subst dZ3; cbn [spec_dZ_out nrows ncols build]; split; congruence).
  assert (E2 : ncols dZ2 = ncols X /\ nrows dZ2 = n2)
    by (subst dZ2; cbn [spec_dZ_hidden nrows ncols build]; split; congruence).
  assert (E1 : ncols dZ1 = ncols X)
    by (subst dZ1; cbn [spec_dZ_hidden nrows ncols build]; congruence).
  destruct E3 as [E3c E3r]. destruct E2 as [E2c E2r].
  rewrite (dZ_out_ok A3 y) by congruence. cbn [bind]. fold dZ3.
  destruct (dW_ok dZ3 A2 (ncols X)) as (p3 & Hd & He); [congruence .. |].
  rewrite Hd; cbn [bind]; rewrite He; clear Hd He; cbn [bind].
  rewrite (db_ok dZ3 (ncols X)) by assumption.
  destruct (dZ_hidden_ok W3 dZ3 A2) as (q2 & Hd & He); [congruence .. |].
  rewrite Hd; cbn [bind]; rewrite He; clear Hd He; cbn [bind].
  fold dZ2.
  destruct (dW_ok dZ2 A1 (ncols X)) as (p2 & Hd & He); [congruence .. |].
  rewrite Hd; cbn [bind]; rewrite He; clear Hd He; cbn [bind].
  rewrite (db_ok dZ2 (ncols X)) by assumption.
  destruct (dZ_hidden_ok W2 dZ2 A1) as (q1 & Hd & He); [congruence .. |].
  rewrite Hd; cbn [bind]; rewrite He; clear Hd He; cbn [bind].
  fold dZ1.
  destruct (dW_ok dZ1 X (ncols X)) as (p1 & Hd & He); [congruence .. |].
  rewrite Hd; cbn [bind]; rewrite He; clear Hd He; cbn [bind].
  rewrite (db_ok dZ1 (ncols X)) by assumption.
  reflexivity.
Qed.

(** ** Cost and update *)

Lemma cost_ok_any (A3 y : ndarray) :
  nrows A3 = nrows y -> ncols A3 = ncols y ->
  compute_cost_3layer A3 y
  = Ok (- rsum (nrows y) (fun i => rsum (ncols y) (fun j =>
            get y i j * ln (get A3 i j) + (1 - get y i j) * ln (1 - get A3 i j)))
        / INR (ncols y)).
Proof.
  intros Hr Hc. unfold compute_cost_3layer, mul, add, np_log, scalar_sub, map_arr.
  rewrite !broadcast2_same by (cbn [nrows ncols build]; congruence).
  cbn [bind nrows ncols build].
  rewrite broadcast2_same by reflexivity.
  cbn [bind nrows ncols build]. unfold Np.sum. cbn [nrows ncols build].
  do 3 f_equal. apply rsum_ext. intros i Hi. apply rsum_ext. intros j Hj.
  rewrite !get_build by lia. reflexivity.
Qed.

Lemma cost_ok (A3 y : ndarray) (m : nat) :
  shape A3 = (1%nat, m) -> shape y = (1%nat, m) ->
  compute_cost_3layer A3 y = Ok (spec_cost m A3 y).
Proof.
  intros HA Hy. shapes. rewrite cost_ok_any by congruence.
  unfold spec_cost. f_equal.
  replace (nrows y) with 1%nat by congruence.
  replace (ncols y) with m by congruence.
  cbn [rsum]. unfold Rdiv. ring.
Qed.

Lemma step_ok (alpha : R) (W dW : ndarray) :
  shape dW = shape W ->
  sub W (scalar_mul alpha dW) = Ok (spec_step alpha W dW).
Proof.
  unfold shape. intros H. inversion H as [[Hr Hc]].
  unfold sub, scalar_mul, map_arr.
  rewrite broadcast2_same by (cbn [nrows ncols build]; assumption).
  unfold spec_step. f_equal. apply build_ext. intros i j Hi Hj.
  rewrite get_build by lia. reflexivity.
Qed.

Lemma update_ok (P : params) (G : grads) (alpha : R) (n0 n1 n2 n3 : nat) :
  params_shape n0 n1 n2 n3 P -> grads_shape n0 n1 n2 n3 G ->
  update_parameters_3layer P G alpha = Ok (spec_update P G alpha).
Proof.
  intros (P1 & P2 & P3 & P4 & P5 & P6) (G1 & G2 & G3 & G4 & G5 & G6).
  unfold update_parameters_3layer.
  rewrite !step_ok by congruence. reflexivity.
Qed.

Lemma spec_update_shape (P : params) (G : grads) (alpha : R) (n0 n1 n2 n3 : nat) :
  params_shape n0 n1 n2 n3 P -> params_shape n0 n1 n2 n3 (spec_update P G alpha).
Proof. intros H. exact H. Qed.

Lemma spec_grads_shape (X y A1 A2 A3 W2 W3 : ndarray) (n0 n1 n2 n3 m : nat) :
  cache_shape n0 n1 n2 n3 m X y A1 A2 A3 ->
  grads_shape n0 n1 n2 n3 (spec_grads X y A1 A2 A3 W2 W3).
Proof.
  intros (HX & Hy & HA1 & HA2 & HA3). shapes.
  unfold grads_shape, spec_grads, shape.
  cbn [dW1 db1 dW2 db2 dW3 db3 spec_dW spec_db spec_dZ_hidden spec_dZ_out
       nrows ncols build].
  repeat split; congruence.
Qed.

(** ** Initialization *)

Lemma randn_ok (d0 d1 : Z) (g : rng) :
  (0 <= d0)%Z -> (0 <= d1)%Z ->
  exists A g', randn d0 d1 g = Ok (A, g') /\ shape A = (Z.to_nat d0, Z.to_nat d1).
Proof.
  intros H0 H1. unfold randn.
  destruct (d0 <? 0)%Z eqn:E0; [apply Z.ltb_lt in E0; lia|].
  destruct (d1 <? 0)%Z eqn:E1; [apply Z.ltb_lt in E1; lia|].
  cbn [orb]. eexists. eexists. split; reflexivity.
Qed.

Lemma zeros_ok (d0 : Z) :
  (0 <= d0)%Z ->
  zeros d0 1 = Ok (build (Z.to_nat d0) 1 (fun _ _ => 0)).
Proof.
  intros H0. unfold zeros.
  destruct (d0 <? 0)%Z eqn:E0; [apply Z.ltb_lt in E0; lia|]. reflexivity.
Qed.

Lemma randn_neg (d0 d1 : Z) (g : rng) :
  (d0 < 0 \/ d1 < 0)%Z -> randn d0 d1 g = Raise ValueError.
Proof.
  intros H. unfold randn.
  destruct (d0 <? 0)%Z eqn:E0; [reflexivity|].
  destruct (d1 <? 0)%Z eqn:E1; [reflexivity|].
  apply Z.ltb_ge in E0. apply Z.ltb_ge in E1. lia.
Qed.

Lemma initialize_ok (n_x n_h1 n_h2 n_y : Z) (g : rng) :
  (0 <= n_x)%Z -> (0 <= n_h1)%Z -> (0 <= n_h2)%Z -> (0 <= n_y)%Z ->
  exists P g',
    initialize_parameters_3layer n_x n_h1 n_h2 n_y g = Ok (P, g')
    /\ params_shape (Z.to_nat n_x) (Z.to_nat n_h1) (Z.to_nat n_h2) (Z.to_nat n_y) P
    /\ b1 P = build (Z.to_nat n_h1) 1 (fun _ _ => 0)
    /\ b2 P = build (Z.to_nat n_h2) 1 (fun _ _ => 0)
    /\ b3 P = build (Z.to_nat n_y) 1 (fun _ _ => 0).
Proof.
  intros Hx H1 H2 Hy. unfold initialize_parameters_3layer.
  destruct (randn_ok n_h1 n_x g H1 Hx) as (r1 & g1 & -> & S1). cbn [bind].
  rewrite (zeros_ok n_h1 H1). cbn [bind].
  destruct (randn_ok n_h2 n_h1 g1 H2 H1) as (r2 & g2 & -> & S2). cbn [bind].
  rewrite (zeros_ok n_h2 H2). cbn [bind].
  destruct (randn_ok n_y n_h2 g2 Hy H2) as (r3 & g3 & -> & S3). cbn [bind].
  rewrite (zeros_ok n_y Hy). cbn [bind].
  eexists. eexists. split; [reflexivity|].
  shapes. unfold params_shape, shape, mul_scalar, map_arr.
  cbn [W1 b1 W2 b2 W3 b3 nrows ncols build].
  repeat split; congruence.
Qed.

Lemma initialize_neg (n_x n_h1 n_h2 n_y : Z) (g : rng) :
  (n_x < 0 \/ n_h1 < 0 \/ n_h2 < 0 \/ n_y < 0)%Z ->
  initialize_parameters_3layer n_x n_h1 n_h2 n_y g = Raise ValueError.
Proof.
  intros H. unfold initialize_parameters_3layer.
  destruct (Z_lt_dec n_h1 0) as [N1|N1]; [now rewrite randn_neg by lia|].
  destruct (Z_lt_dec n_x 0) as [Nx|Nx]; [now rewrite randn_neg by lia|].
  destruct (randn_ok n_h1 n_x g) as (r1 & g1 & -> & _); [lia .. |]. cbn [bind].
  rewrite zeros_ok by lia. cbn [bind].
  destruct (Z_lt_dec n_h2 0) as [N2|N2]; [now rewrite randn_neg by lia|].
  destruct (randn_ok n_h2 n_h1 g1) as (r2 & g2 & -> & _); [lia .. |]. cbn [bind].
  rewrite zeros_ok by lia. cbn [bind].
  now rewrite randn_neg by lia.
Qed.

(** ** The training loop *)

Lemma for_range_app {S : Type} (body : nat -> S -> result S) (l1 l2 : list nat) (s : S) :
  for_range body (l1 ++ l2) s = (s' <- for_range body l1 s ;; for_range body l2 s').
Proof.
  revert s. induction l1 as [|i l1 IH]; intros s; cbn [for_range app bind].
  - reflexivity.
  - destruct (body i s) as [s'|e]; cbn [bind]; [apply IH | reflexivity].
Qed.

Lemma for_range_snoc {S : Type} (body : nat -> S -> result S) (n : nat) (s : S) :
  for_range body (seq 0 (Datatypes.S n)) s
  = (s' <- for_range body (seq 0 n) s ;; body n s').
Proof.
  rewrite seq_S, for_range_app. cbn [Nat.add].
  destruct (for_range body (seq 0 n) s) as [s'|e]; cbn [bind for_range]; [|reflexivity].
  destruct (body n s'); reflexivity.
Qed.

Lemma sampled_S (n : nat) :
  sampled (S n) = sampled n ++ (if (n mod 100 =? 0)%nat then [n] else []).
Proof. unfold sampled. rewrite seq_S, filter_app. reflexivity. Qed.

Lemma sampled_every_100 (n : nat) :
  sampled n = map (fun k => 100 * k)%nat (seq 0 ((n + 99) / 100)).
Proof.
  induction n as [|n IH].
  - reflexivity.
  - rewrite sampled_S, IH.
    pose proof (Nat.div_mod_eq n 100) as D0.
    pose proof (Nat.div_mod_eq (n + 99) 100) as D1.
    pose proof (Nat.div_mod_eq (S n + 99) 100) as D2.
    pose proof (Nat.mod_upper_bound n 100) as B0.
    pose proof (Nat.mod_upper_bound (n + 99) 100) as B1.
    pose proof (Nat.mod_upper_bound (S n + 99) 100) as B2.
    destruct (n mod 100 =? 0)%nat eqn:E.
    + apply Nat.eqb_eq in E.
      assert (H : ((S n + 99) / 100 = S ((n + 99) / 100)
                   /\ n = 100 * ((n + 99) / 100))%nat) by lia.
      destruct H as [-> Hn]. rewrite seq_S, map_app. cbn [map Nat.add].
      now rewrite <- Hn.
    + apply Nat.eqb_neq in E.
      assert (H : ((S n + 99) / 100 = (n + 99) / 100)%nat) by lia.
      rewrite H. now rewrite app_nil_r.
Qed.

Lemma Forall2_map_seq_nth {B : Type} (Rel : nat -> B -> Prop) (f : nat -> nat)
    (q : nat) (l : list B) (d : B) :
  Forall2 Rel (map f (seq 0 q)) l ->
  length l = q /\ forall k, (k < q)%nat -> Rel (f k) (nth k l d).
Proof.
  revert l. induction q as [|q IH]; intros l H.
  - inversion H. split; [reflexivity | intros k Hk; lia].
  - rewrite seq_S, map_app in H. cbn [map Nat.add] in H.
    apply Forall2_app_inv_l in H. destruct H as (l1 & l2 & H1 & H2 & ->).
    apply IH in H1. destruct H1 as [Hlen Hnth].
    inversion H2 as [|? c ? l2' Hc Hnil]; subst. inversion Hnil; subst.
    split.
    + rewrite length_app. cbn [length]. lia.
    + intros k Hk. destruct (Nat.eq_dec k (length l1)) as [->|Hne].
      * rewrite nth_middle. exact Hc.
      * rewrite app_nth1 by lia. apply Hnth. lia.
Qed.

Lemma combine_snoc {A B : Type} (l : list A) (l' : list B) (a : A) (b : B) :
  length l = length l' ->
  combine (l ++ [a]) (l' ++ [b]) = combine l l' ++ [(a, b)].
Proof.
  revert l'. induction l as [|x l IH]; intros [|x' l'] H; cbn in *; try discriminate.
  - reflexivity.
  - f_equal. apply IH. now inversion H.
Qed.

Lemma epoch_ok (X y : ndarray) (alpha : R) (P : params) (n0 n1 n2 n3 m : nat) :
  params_shape n0 n1 n2 n3 P -> shape X = (n0, m) -> shape y = (n3, m) ->
  exists cost P',
    cost_of X y P = Ok cost
    /\ epoch_params X y alpha P = Ok P'
    /\ params_shape n0 n1 n2 n3 P'
    /\ forall i s, ls_params s = P ->
         epoch_body X y alpha i s
         = Ok (if (i mod 100 =? 0)%nat
               then mk_loop_state P' (ls_costs s ++ [cost]) (ls_stdout s ++ [(i, cost)])
               else mk_loop_state P' (ls_costs s) (ls_stdout s)).
Proof.
  intros HP HX Hy.
  pose proof (shape_spec_A1 X P _ _ _ _ _ HP HX) as HA1.
  pose proof (shape_spec_A2 X P _ _ _ _ _ HP HX) as HA2.
  pose proof (shape_spec_A3 X P _ _ _ _ _ HP HX) as HA3.
  assert (HC : cache_shape n0 n1 n2 n3 m X y (spec_A1 X P) (spec_A2 X P) (spec_A3 X P))
    by (repeat split; assumption).
  pose proof (spec_grads_shape X y _ _ _ (W2 P) (W3 P) _ _ _ _ _ HC) as HG.
  assert (Hcost : exists cost, compute_cost_3layer (spec_A3 X P) y = Ok cost).
  { eexists. apply cost_ok_any.
    - apply shape_inv in HA3, Hy. destruct HA3, Hy. congruence.
    - apply shape_inv in HA3, Hy. destruct HA3, Hy. congruence. }
  destruct Hcost as [cost Hcost].
  assert (HB : backward_propagation_3layer X y (spec_A1 X P) (spec_A2 X P) (spec_A3 X P)
                 (W2 P) (W3 P)
               = Ok (spec_grads X y (spec_A1 X P) (spec_A2 X P) (spec_A3 X P) (W2 P) (W3 P))).
  { apply (backward_ok _ _ _ _ _ _ _ n0 n1 n2 n3 m HC); apply HP. }
  exists cost.
  exists (spec_update P (spec_grads X y (spec_A1 X P) (spec_A2 X P) (spec_A3 X P)
                           (W2 P) (W3 P)) alpha).
  split; [|split; [|split]].
  - unfold cost_of. rewrite (forward_ok X P n0 n1 n2 n3 m HP HX). cbn [bind]. exact Hcost.
  - unfold epoch_params. rewrite (forward_ok X P n0 n1 n2 n3 m HP HX). cbn [bind].
    rewrite HB. cbn [bind]. apply (update_ok _ _ _ n0 n1 n2 n3 HP HG).
  - apply spec_update_shape. exact HP.
  - intros i s Hs. unfold epoch_body. cbv zeta. rewrite Hs.
    rewrite (forward_ok X P n0 n1 n2 n3 m HP HX). cbn [bind].
    rewrite Hcost. cbn [bind]. rewrite HB. cbn [bind].
    rewrite (update_ok _ _ _ n0 n1 n2 n3 HP HG). cbn [bind].
    destruct (i mod 100 =? 0)%nat; reflexivity.
Qed.

Lemma loop_ok (X y : ndarray) (alpha : R) (P0 : params) (n0 n1 n2 n3 m : nat) (n : nat) :
  params_shape n0 n1 n2 n3 P0 -> shape X = (n0, m) -> shape y = (n3, m) ->
  exists s,
    for_range (epoch_body X y alpha) (seq 0 n) (mk_loop_state P0 [] []) = Ok s
    /\ loop_inv X y alpha P0 n0 n1 n2 n3 n s.
Proof.
  intros HP HX Hy. induction n as [|n IH].
  - eexists. split; [reflexivity|].
    split; [reflexivity|]. split; [exact HP|]. split; [constructor | reflexivity].
  - destruct IH as (s & Hrun & Hpar & Hshape & Hcosts & Hout).
    destruct (epoch_ok X y alpha (ls_params s) n0 n1 n2 n3 m Hshape HX Hy)
      as (cost & P' & Hcost & Hstep & Hshape' & Hbody).
    rewrite for_range_snoc, Hrun. cbn [bind]. rewrite (Hbody n s eq_refl).
    eexists. split; [reflexivity|].
    assert (Hc : cost_at X y alpha P0 n = Ok cost)
      by (unfold cost_at; rewrite Hpar; exact Hcost).
    unfold loop_inv. rewrite sampled_S.
    destruct (n mod 100 =? 0)%nat; cbn [ls_params ls_costs ls_stdout params_after].
    + rewrite Hpar. cbn [bind]. repeat split; try assumption; try apply Hshape'.
      * apply Forall2_app; [assumption|]. constructor; [exact Hc | constructor].
      * rewrite Hout. rewrite combine_snoc by (eapply Forall2_length; eassumption).
        reflexivity.
    + rewrite Hpar. cbn [bind]. rewrite app_nil_r.
      repeat split; try assumption; apply Hshape'.
Qed.

(** ** The store: numpy operations allocate, they do not overwrite *)

Module StoreFacts.

Local Abbreviation heap := Store.heap.
Local Abbreviation ref := Store.ref.
Local Abbreviation deref := Store.deref.
Local Abbreviation extends := Store.extends.
Local Abbreviation params_fresh := Store.params_fresh.

Lemma extends_deref (h h' : heap) (r : ref) :
  extends h h' -> (r < length h)%nat -> deref h' r = deref h r.
Proof. intros [ext ->] Hr. unfold Store.deref. now apply app_nth1. Qed.

Lemma deref_old (h ext : heap) (r : ref) :
  (r < length h)%nat -> deref (h ++ ext) r = deref h r.
Proof. intros Hr. unfold Store.deref. now apply app_nth1. Qed.

Lemma deref_new (h ext : heap) (k : nat) :
  deref (h ++ ext) (length h + k)%nat = nth k ext Store.empty_array.
Proof. unfold Store.deref. rewrite app_nth2 by lia. f_equal. lia. Qed.

Lemma run_op1 (f : ndarray -> ndarray) (r : ref) (h ext : heap) :
  Store.op1 f r (h ++ ext)
  = Ok ((length h + length ext)%nat, h ++ (ext ++ [f (deref (h ++ ext) r)])).
Proof. unfold Store.op1, Store.alloc. now rewrite length_app, app_assoc. Qed.

Lemma run_op2 (f : ndarray -> ndarray -> result ndarray) (r1 r2 : ref) (h ext : heap) :
  Store.op2 f r1 r2 (h ++ ext)
  = match f (deref (h ++ ext) r1) (deref (h ++ ext) r2) with
    | Ok a => Ok ((length h + length ext)%nat, h ++ (ext ++ [a]))
    | Raise e => Raise e
    end.
Proof.
  unfold Store.op2, Store.alloc. destruct (f _ _); [|reflexivity].
  now rewrite length_app, app_assoc.
Qed.

Ltac store_op1 :=
  rewrite run_op1; cbn beta iota; cbn [app length];
  rewrite ?deref_new; cbn [nth]; rewrite ?deref_old by lia.

Ltac store_op2 :=
  rewrite run_op2; cbn beta iota; cbn [app length];
  rewrite ?deref_new; cbn [nth]; rewrite ?deref_old by lia.

Lemma update_sim (h : heap) (P : Store.params_ref) (G : Store.grads_ref) (alpha : R) :
  Store.params_valid h P -> Store.grads_valid h G ->
  match update_parameters_3layer (Store.deref_params h P) (Store.deref_grads h G) alpha with
  | Ok P' =>
      exists Pr h', Store.update_parameters_3layer P G alpha h = Ok (Pr, h')
                    /\ extends h h' /\ Store.deref_params h' Pr = P'
                    /\ params_fresh h Pr
  | Raise e => Store.update_parameters_3layer P G alpha h = Raise e
  end.
Proof.
  intros (V1 & V2 & V3 & V4 & V5 & V6) (U1 & U2 & U3 & U4 & U5 & U6).
  assert (Hrun : Store.update_parameters_3layer P G alpha h
                 = Store.update_parameters_3layer P G alpha (h ++ []))
    by now rewrite app_nil_r.
  rewrite Hrun. clear Hrun.
  unfold update_parameters_3layer, Store.update_parameters_3layer, Store.deref_params,
    Store.deref_grads, Store.sbind, Store.ret.
  cbn [W1 b1 W2 b2 W3 b3 dW1 db1 dW2 db2 dW3 db3].
  store_op1. store_op2.
  destruct (sub (deref h (Store.rW1 P)) _) as [a1|e]; cbn [bind]; [|reflexivity].
  store_op1. store_op2.
  destruct (sub (deref h (Store.rb1 P)) _) as [a2|e]; cbn [bind]; [|reflexivity].
  store_op1. store_op2.
  destruct (sub (deref h (Store.rW2 P)) _) as [a3|e]; cbn [bind]; [|reflexivity].
  store_op1. store_op2.
  destruct (sub (deref h (Store.rb2 P)) _) as [a4|e]; cbn [bind]; [|reflexivity].
  store_op1. store_op2.
  destruct (sub (deref h (Store.rW3 P)) _) as [a5|e]; cbn [bind]; [|reflexivity].
  store_op1. store_op2.
  destruct (sub (deref h (Store.rb3 P)) _) as [a6|e]; cbn [bind]; [|reflexivity].
  eexists. eexists. split; [reflexivity|]. split; [eexists; reflexivity|].
  unfold Store.deref_params, params_fresh.
  cbn [Store.rW1 Store.rb1 Store.rW2 Store.rb2 Store.rW3 Store.rb3].
  rewrite !deref_new. split; [reflexivity | lia].
Qed.

Ltac store_fail c :=
  destruct c as [?a|?e]; cbn [bind]; [|reflexivity].

Lemma cost_sim (h : heap) (A3 y : ref) :
  (A3 < length h)%nat -> (y < length h)%nat ->
  match compute_cost_3layer (deref h A3) (deref h y) with
  | Ok c => exists h', Store.compute_cost_3layer A3 y h = Ok (c, h') /\ extends h h'
  | Raise e => Store.compute_cost_3layer A3 y h = Raise e
  end.
Proof.
  intros VA Vy.
  assert (Hrun : Store.compute_cost_3layer A3 y h
                 = Store.compute_cost_3layer A3 y (h ++ []))
    by now rewrite app_nil_r.
  rewrite Hrun. clear Hrun.
  unfold compute_cost_3layer, Store.compute_cost_3layer, Store.sbind, Store.ret,
    Store.read.
  cbv zeta. rewrite ?deref_old by lia.
  store_op1. store_op2.
  store_fail (mul (deref h y) (np_log (deref h A3))).
  store_op1. store_op1. store_op1. store_op2.
  store_fail (mul (scalar_sub 1 (deref h y)) (np_log (scalar_sub 1 (deref h A3)))).
  store_op2.
  store_fail (add a a0).
  rewrite ?deref_new. cbn [nth].
  eexists. split; [reflexivity | eexists; reflexivity].
Qed.

Lemma backward_sim (h : heap) (X y A1 A2 A3 W2 W3 : ref) :
  (X < length h)%nat -> (y < length h)%nat -> (A1 < length h)%nat ->
  (A2 < length h)%nat -> (A3 < length h)%nat -> (W2 < length h)%nat ->
  (W3 < length h)%nat ->
  match backward_propagation_3layer (deref h X) (deref h y) (deref h A1) (deref h A2)
          (deref h A3) (deref h W2) (deref h W3) with
  | Ok G =>
      exists Gr h', Store.backward_propagation_3layer X y A1 A2 A3 W2 W3 h = Ok (Gr, h')
                    /\ extends h h' /\ Store.deref_grads h' Gr = G
  | Raise e => Store.backward_propagation_3layer X y A1 A2 A3 W2 W3 h = Raise e
  end.
Proof.
  intros VX Vy VA1 VA2 VA3 VW2 VW3.
  assert (Hrun : Store.backward_propagation_3layer X y A1 A2 A3 W2 W3 h
                 = Store.backward_propagation_3layer X y A1 A2 A3 W2 W3 (h ++ []))
    by now rewrite app_nil_r.
  rewrite Hrun. clear Hrun.
  unfold backward_propagation_3layer, Store.backward_propagation_3layer, Store.sbind,
    Store.ret, Store.read.
  cbv zeta. rewrite ?deref_old by lia.
  store_op2. store_fail (sub (deref h A3) (deref h y)).
  store_op1. store_op2. store_fail (dot a (transpose (deref h A2))).
  store_op1. store_op1. store_op1. store_op1.
  store_op2. store_fail (dot (transpose (deref h W3)) a).
  store_op1. store_op2. store_fail (mul a1 (gt0 (deref h A2))).
  store_op1. store_op2. store_fail (dot a2 (transpose (deref h A1))).
  store_op1. store_op1. store_op1. store_op1.
  store_op2. store_fail (dot (transpose (deref h W2)) a2).
  store_op1. store_op2. store_fail (mul a4 (gt0 (deref h A1))).
  store_op1. store_op2. store_fail (dot a5 (transpose (deref h X))).
  store_op1. store_op1. store_op1.
  eexists. eexists. split; [reflexivity|]. split; [eexists; reflexivity|].
  unfold Store.deref_grads.
  cbn [Store.rdW1 Store.rdb1 Store.rdW2 Store.rdb2 Store.rdW3 Store.rdb3].
  rewrite !deref_new. reflexivity.
Qed.

End StoreFacts.

(** ** Evaluation on concrete arrays *)

Ltac np_eval :=
  cbv [forward_propagation_3layer backward_propagation_3layer compute_cost_3layer
       update_parameters_3layer initialize_parameters_3layer linear relu sigmoid
       dot add sub mul broadcast2 bdim bidx build map_arr maximum scalar_div
       scalar_add scalar_sub scalar_mul div_scalar mul_scalar np_exp np_log neg
       gt0 transpose sum_axis1_keepdims Np.sum randn zeros get nth map seq data
       nrows ncols shape rsum bind Nat.eqb Nat.add Nat.mul orb Z.ltb Z.compare
       Z.to_nat Pos.to_nat Pos.iter_op
       W1 b1 W2 b2 W3 b3 dW1 db1 dW2 db2 dW3 db3
       spec_linear spec_relu spec_sigmoid spec_dZ_out spec_dZ_hidden spec_dW
       spec_db spec_step spec_update spec_Z1 spec_A1 spec_Z2 spec_A2 spec_Z3 spec_A3
       one tiny_X tiny_Pa tiny_Pb tiny_G ex_X ex_y ex_P ex_A1 ex_A2 ex_A3 ex_G rng0].

Lemma Rmax_0_nonpos (z : R) : z <= 0 -> Rmax 0 z = 0.
Proof. intros H. apply Rmax_left. exact H. Qed.

Lemma Rmax_0_pos (z : R) : 0 < z -> Rmax 0 z = z.
Proof. intros H. apply Rmax_right. lra. Qed.

Lemma gt0_entry_Rmax (z : R) : gt0_entry (Rmax 0 z) = spec_relu_grad z.
Proof.
  unfold gt0_entry, spec_relu_grad.
  destruct (Rlt_dec 0 z) as [Hz|Hz].
  - rewrite Rmax_0_pos by exact Hz. destruct (Rlt_dec 0 z); [reflexivity | contradiction].
  - rewrite Rmax_0_nonpos by lra. destruct (Rlt_dec 0 0); [lra | reflexivity].
Qed.

Example relu_row :
  relu (mk_ndarray 1 3 [[-1; 0; 1]]) = mk_ndarray 1 3 [[0; 0; 1]].
Proof.
  np_eval. rewrite (Rmax_0_nonpos (-1)) by lra. rewrite (Rmax_0_nonpos 0) by lra.
  rewrite (Rmax_0_pos 1) by lra. reflexivity.
Qed.

Example tiny_forward_a :
  forward_propagation_3layer tiny_X tiny_Pa = Ok (one 0, one 0, one (/ 2)).
Proof.
  np_eval.
  replace (0 + -1 * 1 + 0) with (-1) by lra. rewrite (Rmax_0_nonpos (-1)) by lra.
  replace (0 + 1 * 0 + 0) with 0 by lra. rewrite (Rmax_0_nonpos 0) by lra.
  replace (0 + 1 * 0 + 0) with 0 by lra. rewrite Ropp_0, exp_0.
  replace (1 / (1 + 1)) with (/ 2) by lra. reflexivity.
Qed.

Example tiny_forward_b :
  forward_propagation_3layer tiny_X tiny_Pb = Ok (one 0, one 0, one (/ 2)).
Proof.
  np_eval.
  replace (0 + -2 * 1 + 0) with (-2) by lra. rewrite (Rmax_0_nonpos (-2)) by lra.
  replace (0 + 1 * 0 + 0) with 0 by lra. rewrite (Rmax_0_nonpos 0) by lra.
  replace (0 + 1 * 0 + 0) with 0 by lra. rewrite Ropp_0, exp_0.
  replace (1 / (1 + 1)) with (/ 2) by lra. reflexivity.
Qed.

Example tiny_linear_a :
  linear (W1 tiny_Pa) tiny_X (b1 tiny_Pa) = Ok (one (-1)).
Proof. np_eval. replace (0 + -1 * 1 + 0) with (-1) by lra. reflexivity. Qed.

Example tiny_linear_b :
  linear (W1 tiny_Pb) tiny_X (b1 tiny_Pb) = Ok (one (-2)).
Proof. np_eval. replace (0 + -2 * 1 + 0) with (-2) by lra. reflexivity. Qed.

Example tiny_update_uphill :
  update_parameters_3layer tiny_Pa tiny_G (-1)
  = Ok (mk_params (one 0) (one 1) (one 2) (one 1) (one 2) (one 1)).
Proof.
  np_eval.
  replace (-1 - -1 * 1) with 0 by lra. replace (0 - -1 * 1) with 1 by lra.
  replace (1 - -1 * 1) with 2 by lra. reflexivity.
Qed.

Lemma gt0_entry_0 : gt0_entry 0 = 0.
Proof. unfold gt0_entry. destruct (Rlt_dec 0 0); [lra | reflexivity]. Qed.

(** With a first-layer pre-activation of -1 the hidden activations are 0,
    their masks are 0, and only the output bias receives a gradient. *)
Example tiny_backward :
  backward_propagation_3layer tiny_X (one 1) (one 0) (one 0) (one (/ 2))
    (W2 tiny_Pa) (W3 tiny_Pa)
  = Ok (mk_grads (one 0) (one 0) (one 0) (one 0) (one 0) (one (- / 2))).
Proof.
  np_eval. rewrite gt0_entry_0. cbn [INR].
  unfold one. repeat f_equal; lra.
Qed.

(** The cost of the prediction 1/2 is [ln 2]. *)
Example tiny_cost : compute_cost_3layer (one (/ 2)) (one 1) = Ok (ln 2).
Proof.
  np_eval. cbn [INR]. rewrite ln_Rinv by lra. f_equal. lra.
Qed.

(** ** The claims *)

(** C1.  For a cache and labels of matching shapes, backward propagation
    returns the gradients of the closed forms: [dZ3 = A3 - y] at the output
    layer, and for every layer [dW = (1/m) . dZ . A_prev^T] and
    [db = (1/m) . (sum of the columns of dZ)], a column vector.  The labels
    may have any number [n3] of rows; the claim is the case [n3 = 1]. *)
Theorem backward_closed_forms (X y A1 A2 A3 W2 W3 : ndarray) (n0 n1 n2 n3 m : nat) :
  cache_shape n0 n1 n2 n3 m X y A1 A2 A3 ->
  shape W2 = (n2, n1) -> shape W3 = (n3, n2) ->
  let dZ3 := spec_dZ_out A3 y in
  let dZ2 := spec_dZ_hidden W3 dZ3 A2 in
  let dZ1 := spec_dZ_hidden W2 dZ2 A1 in
  backward_propagation_3layer X y A1 A2 A3 W2 W3
  = Ok (mk_grads (spec_dW m dZ1 X) (spec_db m dZ1)
                 (spec_dW m dZ2 A1) (spec_db m dZ2)
                 (spec_dW m dZ3 A2) (spec_db m dZ3))
  /\ shape dZ3 = (n3, m)
  /\ (forall i j, (i < n3)%nat -> (j < m)%nat ->
        get dZ3 i j = get A3 i j - get y i j)
  /\ (forall i j, (i < n3)%nat -> (j < n2)%nat ->
        get (spec_dW m dZ3 A2) i j
        = 1 / INR m * rsum m (fun k => get dZ3 i k * get A2 j k))
  /\ (forall i j, (i < n2)%nat -> (j < n1)%nat ->
        get (spec_dW m dZ2 A1) i j
        = 1 / INR m * rsum m (fun k => get dZ2 i k * get A1 j k))
  /\ (forall i j, (i < n1)%nat -> (j < n0)%nat ->
        get (spec_dW m dZ1 X) i j
        = 1 / INR m * rsum m (fun k => get dZ1 i k * get X j k))
  /\ (forall i, (i < n3)%nat ->
        get (spec_db m dZ3) i 0 = 1 / INR m * rsum m (fun k => get dZ3 i k))
  /\ (forall i, (i < n2)%nat ->
        get (spec_db m dZ2) i 0 = 1 / INR m * rsum m (fun k => get dZ2 i k))
  /\ (forall i, (i < n1)%nat ->
        get (spec_db m dZ1) i 0 = 1 / INR m * rsum m (fun k => get dZ1 i k))
  /\ shape (spec_db m dZ1) = (n1, 1%nat)
  /\ shape (spec_db m dZ2) = (n2, 1%nat)
  /\ shape (spec_db m dZ3) = (n3, 1%nat).
Proof.
  intros HC HW2 HW3 dZ3 dZ2 dZ1.
  pose proof (backward_ok X y A1 A2 A3 W2 W3 n0 n1 n2 n3 m HC HW2 HW3) as HB.
  destruct HC as (HX & Hy & HA1 & HA2 & HA3). shapes.
  assert (Em : ncols X = m) by assumption.
  unfold spec_grads in HB. cbv zeta in HB. rewrite Em in HB.
  split; [exact HB|].
  assert (S3 : nrows dZ3 = n3 /\ ncols dZ3 = m)
    by (subst dZ3; cbn [spec_dZ_out nrows ncols build]; split; congruence).
  assert (S2 : nrows dZ2 = n2 /\ ncols dZ2 = m)
    by (subst dZ2; cbn [spec_dZ_hidden nrows ncols build]; split; congruence).
  assert (S1 : nrows dZ1 = n1 /\ ncols dZ1 = m)
    by (subst dZ1; cbn [spec_dZ_hidden nrows ncols build]; split; congruence).
  destruct S3 as [S3r S3c]. destruct S2 as [S2r S2c]. destruct S1 as [S1r S1c].
  split; [unfold shape; congruence|].
  split.
  { intros i j Hi Hj. subst dZ3. unfold spec_dZ_out.
    rewrite get_build by congruence. reflexivity. }
  unfold spec_dW, spec_db, shape. cbn [nrows ncols build].
  repeat split; try congruence; intros; rewrite get_build by (lia || congruence);
    reflexivity.
Qed.

Lemma backward_closed_forms_witness :
  backward_propagation_3layer ex_X ex_y ex_A1 ex_A2 ex_A3 (W2 ex_P) (W3 ex_P)
  = Ok (spec_grads ex_X ex_y ex_A1 ex_A2 ex_A3 (W2 ex_P) (W3 ex_P)).
Proof.
  apply (backward_closed_forms ex_X ex_y ex_A1 ex_A2 ex_A3 (W2 ex_P) (W3 ex_P)
           2 2 1 1 2).
  - repeat split; reflexivity.
  - reflexivity.
  - reflexivity.
Defined.

Lemma mask_of_relu (Z : ndarray) :
  gt0 (relu Z)
  = build (nrows Z) (ncols Z) (fun i j => spec_relu_grad (get Z i j)).
Proof.
  unfold gt0, relu, maximum, map_arr. cbn [nrows ncols build].
  apply build_ext. intros i j Hi Hj.
  rewrite get_build by assumption. apply gt0_entry_Rmax.
Qed.

Lemma dZ_hidden_relu (W_next dZ_next Z : ndarray) :
  spec_dZ_hidden W_next dZ_next (spec_relu Z) = spec_dZ_hidden W_next dZ_next Z.
Proof.
  unfold spec_dZ_hidden, spec_relu. cbn [nrows ncols build].
  apply build_ext. intros i j Hi Hj.
  rewrite get_build by assumption. f_equal. apply gt0_entry_Rmax.
Qed.

(** C2.  In a backward pass on the cache of a forward pass, the mask of a
    hidden layer is 1 exactly at the entries where the pre-activation of
    that layer is strictly positive and 0 elsewhere; at the pre-activations
    0, -1 and 1 it is 0, 0 and 1. *)
Theorem relu_mask_strict (X y : ndarray) (P : params) (n0 n1 n2 n3 m : nat) :
  params_shape n0 n1 n2 n3 P -> shape X = (n0, m) -> shape y = (n3, m) ->
  exists Z1 Z2 A3,
    linear (W1 P) X (b1 P) = Ok Z1
    /\ linear (W2 P) (relu Z1) (b2 P) = Ok Z2
    /\ forward_propagation_3layer X P = Ok (relu Z1, relu Z2, A3)
    /\ gt0 (relu Z1) = build n1 m (fun i j => if Rlt_dec 0 (get Z1 i j) then 1 else 0)
    /\ gt0 (relu Z2) = build n2 m (fun i j => if Rlt_dec 0 (get Z2 i j) then 1 else 0)
    /\ (let dZ3 := spec_dZ_out A3 y in
        let dZ2 := spec_dZ_hidden (W3 P) dZ3 Z2 in
        let dZ1 := spec_dZ_hidden (W2 P) dZ2 Z1 in
        backward_propagation_3layer X y (relu Z1) (relu Z2) A3 (W2 P) (W3 P)
        = Ok (mk_grads (spec_dW m dZ1 X) (spec_db m dZ1)
                       (spec_dW m dZ2 (relu Z1)) (spec_db m dZ2)
                       (spec_dW m dZ3 (relu Z2)) (spec_db m dZ3)))
    /\ gt0_entry (Rmax 0 0) = 0
    /\ gt0_entry (Rmax 0 (-1)) = 0
    /\ gt0_entry (Rmax 0 1) = 1.
Proof.
  intros HP HX Hy.
  pose proof (forward_ok X P n0 n1 n2 n3 m HP HX) as HF.
  pose proof (shape_spec_A1 X P _ _ _ _ _ HP HX) as HA1.
  pose proof (shape_spec_A2 X P _ _ _ _ _ HP HX) as HA2.
  pose proof (shape_spec_A3 X P _ _ _ _ _ HP HX) as HA3.
  assert (HC : cache_shape n0 n1 n2 n3 m X y (spec_A1 X P) (spec_A2 X P) (spec_A3 X P))
    by (repeat split; assumption).
  destruct HP as (HW1 & Hb1 & HW2 & Hb2 & HW3 & Hb3).
  pose proof (backward_ok X y _ _ _ (W2 P) (W3 P) n0 n1 n2 n3 m HC HW2 HW3) as HB.
  exists (spec_Z1 X P), (spec_Z2 X P), (spec_A3 X P).
  rewrite !relu_spec. fold (spec_A1 X P). fold (spec_A2 X P).
  split; [apply (linear_ok _ _ _ n1 n0 m); assumption|].
  split; [apply (linear_ok _ _ _ n2 n1 m); assumption|].
  split; [exact HF|].
  assert (S1 : shape (spec_Z1 X P) = (n1, m)) by exact HA1.
  assert (S2 : shape (spec_Z2 X P) = (n2, m)) by exact HA2.
  apply shape_inv in S1, S2. destruct S1 as [S1r S1c]. destruct S2 as [S2r S2c].
  split.
  { change (spec_A1 X P) with (relu (spec_Z1 X P)).
    rewrite mask_of_relu. now rewrite S1r, S1c. }
  split.
  { change (spec_A2 X P) with (relu (spec_Z2 X P)).
    rewrite mask_of_relu. now rewrite S2r, S2c. }
  split.
  { cbv zeta. change (relu (spec_Z2 X P)) with (spec_A2 X P).
    rewrite HB. unfold spec_grads. cbv zeta.
    apply shape_inv in HX. destruct HX as [_ ->].
    assert (E2 : forall W dZ, spec_dZ_hidden W dZ (spec_A2 X P)
                              = spec_dZ_hidden W dZ (spec_Z2 X P))
      by (intros; apply dZ_hidden_relu).
    assert (E1 : forall W dZ, spec_dZ_hidden W dZ (spec_A1 X P)
                              = spec_dZ_hidden W dZ (spec_Z1 X P))
      by (intros; apply dZ_hidden_relu).
    rewrite !E2, !E1. reflexivity. }
  rewrite !gt0_entry_Rmax. unfold spec_relu_grad.
  repeat split; destruct (Rlt_dec _ _); lra.
Qed.

Lemma relu_mask_strict_witness :
  exists Z1 Z2 A3,
    forward_propagation_3layer ex_X ex_P = Ok (relu Z1, relu Z2, A3)
    /\ gt0 (relu Z1) = build 2 2 (fun i j => if Rlt_dec 0 (get Z1 i j) then 1 else 0).
Proof.
  destruct (relu_mask_strict ex_X ex_y ex_P 2 2 1 1 2)
    as (Z1 & Z2 & A3 & _ & _ & HF & HM & _).
  - repeat split; reflexivity.
  - reflexivity.
  - reflexivity.
  - exists Z1, Z2, A3. split; assumption.
Defined.

(** C7.  On parameters and an input of matching shapes the forward pass
    computes, layer by layer from [A0 = X], [Z = W . A_prev + b] with the bias
    broadcast across the columns, [A = max(0, Z)] on the two hidden layers
    and [A = 1 / (1 + e^-Z)] on the last one. *)
Theorem forward_layer_by_layer (X : ndarray) (P : params) (n0 n1 n2 n3 m : nat) :
  params_shape n0 n1 n2 n3 P -> shape X = (n0, m) ->
  exists Z1 Z2 Z3 A1 A2 A3,
    forward_propagation_3layer X P = Ok (A1, A2, A3)
    /\ linear (W1 P) X (b1 P) = Ok Z1
    /\ linear (W2 P) A1 (b2 P) = Ok Z2
    /\ linear (W3 P) A2 (b3 P) = Ok Z3
    /\ shape Z1 = (n1, m) /\ shape Z2 = (n2, m) /\ shape Z3 = (n3, m)
    /\ shape A1 = (n1, m) /\ shape A2 = (n2, m) /\ shape A3 = (n3, m)
    /\ (forall i j, (i < n1)%nat -> (j < m)%nat ->
          get Z1 i j = rsum n0 (fun k => get (W1 P) i k * get X k j) + get (b1 P) i 0
          /\ get A1 i j = Rmax 0 (get Z1 i j))
    /\ (forall i j, (i < n2)%nat -> (j < m)%nat ->
          get Z2 i j = rsum n1 (fun k => get (W2 P) i k * get A1 k j) + get (b2 P) i 0
          /\ get A2 i j = Rmax 0 (get Z2 i j))
    /\ (forall i j, (i < n3)%nat -> (j < m)%nat ->
          get Z3 i j = rsum n2 (fun k => get (W3 P) i k * get A2 k j) + get (b3 P) i 0
          /\ get A3 i j = 1 / (1 + exp (- get Z3 i j))).
Proof.
  intros HP HX.
  pose proof (forward_ok X P n0 n1 n2 n3 m HP HX) as HF.
  pose proof (shape_spec_A1 X P _ _ _ _ _ HP HX) as HA1.
  pose proof (shape_spec_A2 X P _ _ _ _ _ HP HX) as HA2.
  pose proof (shape_spec_A3 X P _ _ _ _ _ HP HX) as HA3.
  destruct HP as (HW1 & Hb1 & HW2 & Hb2 & HW3 & Hb3).
  exists (spec_Z1 X P), (spec_Z2 X P), (spec_Z3 X P).
  exists (spec_A1 X P), (spec_A2 X P), (spec_A3 X P).
  split; [exact HF|].
  split; [apply (linear_ok _ _ _ n1 n0 m); assumption|].
  split; [apply (linear_ok _ _ _ n2 n1 m); assumption|].
  split; [apply (linear_ok _ _ _ n3 n2 m); assumption|].
  assert (S1 : shape (spec_Z1 X P) = (n1, m)) by exact HA1.
  assert (S2 : shape (spec_Z2 X P) = (n2, m)) by exact HA2.
  assert (S3 : shape (spec_Z3 X P) = (n3, m)) by exact HA3.
  repeat (split; [assumption|]).
  shapes.
  split; [|split]; intros i j Hi Hj; split.
  - unfold spec_Z1, spec_linear. rewrite get_build by congruence. congruence.
  - unfold spec_A1, spec_relu. rewrite get_build by congruence. reflexivity.
  - unfold spec_Z2, spec_linear. rewrite get_build by congruence. congruence.
  - unfold spec_A2, spec_relu. rewrite get_build by congruence. reflexivity.
  - unfold spec_Z3, spec_linear. rewrite get_build by congruence. congruence.
  - unfold spec_A3, spec_sigmoid. rewrite get_build by congruence. reflexivity.
Qed.

Lemma forward_layer_by_layer_witness :
  exists A1 A2 A3, forward_propagation_3layer ex_X ex_P = Ok (A1, A2, A3)
                   /\ shape A3 = (1%nat, 2%nat).
Proof.
  destruct (forward_layer_by_layer ex_X ex_P 2 2 1 1 2)
    as (Z1 & Z2 & Z3 & A1 & A2 & A3 & HF & _ & _ & _ & _ & _ & _ & _ & _ & HS & _).
  - repeat split; reflexivity.
  - reflexivity.
  - exists A1, A2, A3. split; assumption.
Defined.

(** C8.  For a final-layer output and labels of shape [(1, m)], the output's
    entries strictly between 0 and 1, the cost is the binary cross-entropy
    [-(1/m) . sum_i (y_i log a_i + (1 - y_i) log (1 - a_i))].  (Outside the
    interval numpy's logarithm gives an infinity or NaN, which the real [ln]
    does not model.) *)
Theorem cost_is_cross_entropy (A3 y : ndarray) (m : nat) :
  shape A3 = (1%nat, m) -> shape y = (1%nat, m) ->
  (forall i, (i < m)%nat -> 0 < get A3 0 i < 1) ->
  compute_cost_3layer A3 y
  = Ok (- (1 / INR m) *
        rsum m (fun i => get y 0 i * ln (get A3 0 i)
                         + (1 - get y 0 i) * ln (1 - get A3 0 i))).
Proof. intros HA Hy _. exact (cost_ok A3 y m HA Hy). Qed.

Lemma cost_is_cross_entropy_witness :
  compute_cost_3layer ex_A3 ex_y = Ok (spec_cost 2 ex_A3 ex_y).
Proof.
  apply (cost_is_cross_entropy ex_A3 ex_y 2).
  - reflexivity.
  - reflexivity.
  - intros i Hi. destruct i as [|[|i]]; cbn; [lra | lra | lia].
Defined.

Lemma initialize_wf (n_x n_h1 n_h2 n_y : Z) (g g' : rng) (P : params) :
  initialize_parameters_3layer n_x n_h1 n_h2 n_y g = Ok (P, g') -> params_wf P.
Proof.
  unfold initialize_parameters_3layer, randn, zeros. intros H.
  repeat match type of H with
         | context [if ?c then _ else _] =>
             destruct c; cbn [bind] in H; try discriminate H
         end.
  inversion H. subst. unfold params_wf, mul_scalar, map_arr.
  cbn [W1 b1 W2 b2 W3 b3]. repeat split; apply wf_build.
Qed.

Lemma spec_grads_wf (X y A1 A2 A3 W2 W3 : ndarray) :
  let G := spec_grads X y A1 A2 A3 W2 W3 in
  wf (dW1 G) /\ wf (db1 G) /\ wf (dW2 G) /\ wf (db2 G) /\ wf (dW3 G) /\ wf (db3 G).
Proof.
  unfold spec_grads, spec_dW, spec_db. cbn [dW1 db1 dW2 db2 dW3 db3].
  repeat split; apply wf_build.
Qed.

(** C9.  For widths that are all at least 1 and a batch of [m >= 1] samples:
    initialization gives parameters of the shapes of the widths, the forward
    pass on parameters of these shapes gives [A3] of shape [(n_y, m)], and the
    backward pass gives every [dW] the shape of its [W] and every [db] the
    shape of its [b].  A shape is meant with its rows: each of these arrays
    has as many rows as its shape says, every row as long as its shape says. *)
Theorem shape_invariants (n_x n_h1 n_h2 n_y : Z) (m : nat) (X y : ndarray) (g : rng) :
  (1 <= n_x)%Z -> (1 <= n_h1)%Z -> (1 <= n_h2)%Z -> (1 <= n_y)%Z -> (1 <= m)%nat ->
  shape X = (Z.to_nat n_x, m) -> shape y = (Z.to_nat n_y, m) ->
  (exists P g',
      initialize_parameters_3layer n_x n_h1 n_h2 n_y g = Ok (P, g')
      /\ params_shape (Z.to_nat n_x) (Z.to_nat n_h1) (Z.to_nat n_h2) (Z.to_nat n_y) P
      /\ params_wf P)
  /\ forall P,
      params_shape (Z.to_nat n_x) (Z.to_nat n_h1) (Z.to_nat n_h2) (Z.to_nat n_y) P ->
      exists A1 A2 A3 G,
        forward_propagation_3layer X P = Ok (A1, A2, A3)
        /\ shape A3 = (Z.to_nat n_y, m)
        /\ wf A3
        /\ length (data A3) = Z.to_nat n_y
        /\ Forall (fun row => length row = m) (data A3)
        /\ backward_propagation_3layer X y A1 A2 A3 (W2 P) (W3 P) = Ok G
        /\ shape (dW1 G) = shape (W1 P) /\ shape (db1 G) = shape (b1 P)
        /\ shape (dW2 G) = shape (W2 P) /\ shape (db2 G) = shape (b2 P)
        /\ shape (dW3 G) = shape (W3 P) /\ shape (db3 G) = shape (b3 P)
        /\ wf (dW1 G) /\ wf (db1 G) /\ wf (dW2 G) /\ wf (db2 G)
        /\ wf (dW3 G) /\ wf (db3 G).
Proof.
  intros Hx H1 H2 Hy Hm HX HY. split.
  - destruct (initialize_ok n_x n_h1 n_h2 n_y g) as (P & g' & HI & HS & _); [lia .. |].
    exists P, g'. split; [exact HI|]. split; [exact HS|].
    exact (initialize_wf _ _ _ _ _ _ _ HI).
  - intros P HP.
    pose proof (forward_ok X P _ _ _ _ m HP HX) as HF.
    pose proof (shape_spec_A1 X P _ _ _ _ _ HP HX) as HA1.
    pose proof (shape_spec_A2 X P _ _ _ _ _ HP HX) as HA2.
    pose proof (shape_spec_A3 X P _ _ _ _ _ HP HX) as HA3.
    assert (HC : cache_shape (Z.to_nat n_x) (Z.to_nat n_h1) (Z.to_nat n_h2) (Z.to_nat n_y)
                   m X y (spec_A1 X P) (spec_A2 X P) (spec_A3 X P))
      by (repeat split; assumption).
    pose proof (spec_grads_shape X y _ _ _ (W2 P) (W3 P) _ _ _ _ _ HC) as HG.
    pose proof (spec_grads_wf X y (spec_A1 X P) (spec_A2 X P) (spec_A3 X P) (W2 P) (W3 P))
      as HGw.
    cbv zeta in HGw.
    assert (HAw : wf (spec_A3 X P)) by (unfold spec_A3, spec_sigmoid; apply wf_build).
    destruct HP as (HW1 & Hb1 & HW2 & Hb2 & HW3 & Hb3).
    pose proof (backward_ok X y _ _ _ (W2 P) (W3 P) _ _ _ _ _ HC HW2 HW3) as HB.
    destruct HG as (G1 & G2 & G3 & G4 & G5 & G6).
    destruct HGw as (F1 & F2 & F3 & F4 & F5 & F6).
    exists (spec_A1 X P), (spec_A2 X P), (spec_A3 X P).
    exists (spec_grads X y (spec_A1 X P) (spec_A2 X P) (spec_A3 X P) (W2 P) (W3 P)).
    split; [exact HF|]. split; [exact HA3|]. split; [exact HAw|].
    pose proof HAw as [Hlen Hrows]. pose proof HA3 as HA3'.
    apply shape_inv in HA3'. destruct HA3' as [Hr Hc].
    split; [congruence|]. split; [rewrite <- Hc; exact Hrows|].
    split; [exact HB|].
    repeat (split; [congruence|]).
    repeat (split; [assumption|]). assumption.
Qed.

Lemma shape_invariants_witness :
  exists A1 A2 A3 G,
    forward_propagation_3layer ex_X ex_P = Ok (A1, A2, A3)
    /\ shape A3 = (1%nat, 2%nat) /\ wf A3
    /\ backward_propagation_3layer ex_X ex_y A1 A2 A3 (W2 ex_P) (W3 ex_P) = Ok G
    /\ shape (dW1 G) = shape (W1 ex_P) /\ wf (dW1 G).
Proof.
  destruct (shape_invariants 2 2 1 1 2 ex_X ex_y rng0) as [_ H];
    [lia | lia | lia | lia | lia | reflexivity | reflexivity |].
  destruct (H ex_P)
    as (A1 & A2 & A3 & G & HF & HS & HAw & _ & _ & HB & HW & _ & _ & _ & _ & _ & HGw & _).
  - repeat split; reflexivity.
  - exists A1, A2, A3, G. repeat split; try assumption; apply HAw || apply HGw.
Defined.

(** C3.  On an input and labels with the same number of columns, each of the
    [epochs] iterations runs forward propagation, the cost, backward
    propagation and the update on the parameters the previous iteration left;
    the trainer then returns the parameters after the last iteration and the
    cost history, whose k-th entry is the cost computed in epoch 100 k (on the
    parameters before that epoch's update), one entry for every such epoch
    below [epochs]. *)
Theorem train_epochs_in_order (X y : ndarray) (n_h1 n_h2 : Z) (alpha : R) (epochs : Z)
    (g : rng) (n0 n3 m : nat) :
  shape X = (n0, m) -> shape y = (n3, m) -> (0 <= n_h1)%Z -> (0 <= n_h2)%Z ->
  exists P0 g' P costs,
    initialize_parameters_3layer (Z.of_nat n0) n_h1 n_h2 (Z.of_nat n3) g = Ok (P0, g')
    /\ train_three_layer X y n_h1 n_h2 alpha epochs g
       = Ok (P, costs,
             combine (map (fun k => 100 * k)%nat (seq 0 (length costs))) costs, g')
    /\ params_after X y alpha P0 (Z.to_nat epochs) = Ok P
    /\ length costs = ((Z.to_nat epochs + 99) / 100)%nat
    /\ (forall k, (100 * k < Z.to_nat epochs)%nat ->
          cost_at X y alpha P0 (100 * k) = Ok (nth k costs 0))
    /\ (forall i, (i < Z.to_nat epochs)%nat ->
          exists Pi cost Pi',
            params_after X y alpha P0 i = Ok Pi
            /\ cost_of X y Pi = Ok cost
            /\ epoch_params X y alpha Pi = Ok Pi'
            /\ params_after X y alpha P0 (S i) = Ok Pi').
Proof.
  intros HX Hy H1 H2.
  destruct (initialize_ok (Z.of_nat n0) n_h1 n_h2 (Z.of_nat n3) g)
    as (P0 & g' & HI & HS & _); [lia .. |].
  rewrite !Nat2Z.id in HS.
  set (n1 := Z.to_nat n_h1) in *. set (n2 := Z.to_nat n_h2) in *.
  destruct (loop_ok X y alpha P0 n0 n1 n2 n3 m (Z.to_nat epochs) HS HX Hy)
    as (s & Hrun & Hpar & Hshape & Hcosts & Hout).
  rewrite sampled_every_100 in Hcosts, Hout.
  destruct (Forall2_map_seq_nth _ _ _ _ 0 Hcosts) as [Hlen Hnth].
  exists P0, g', (ls_params s), (ls_costs s).
  split; [exact HI|]. split.
  { unfold train_three_layer. cbv zeta.
    apply shape_inv in HX, Hy. destruct HX as [-> _]. destruct Hy as [-> _].
    rewrite HI. cbn [bind]. rewrite Hrun. cbn [bind].
    rewrite Hout, Hlen. reflexivity. }
  split; [exact Hpar|]. split; [exact Hlen|]. split.
  { intros k Hk. apply Hnth.
    pose proof (Nat.div_mod_eq (Z.to_nat epochs + 99) 100) as D.
    pose proof (Nat.mod_upper_bound (Z.to_nat epochs + 99) 100) as B. lia. }
  intros i Hi.
  assert (Hall : forall j, (j <= Z.to_nat epochs)%nat ->
            exists Pj, params_after X y alpha P0 j = Ok Pj
                       /\ params_shape n0 n1 n2 n3 Pj).
  { intros j Hj.
    destruct (loop_ok X y alpha P0 n0 n1 n2 n3 m j HS HX Hy) as (sj & _ & Hp & Hs & _).
    exists (ls_params sj). split; assumption. }
  destruct (Hall i) as (Pi & HPi & HSi); [lia|].
  destruct (epoch_ok X y alpha Pi n0 n1 n2 n3 m HSi HX Hy)
    as (cost & Pi' & Hc & He & _ & _).
  exists Pi, cost, Pi'. repeat split; try assumption.
  cbn [params_after]. rewrite HPi. cbn [bind]. exact He.
Qed.

Lemma train_epochs_in_order_witness :
  exists P costs out g',
    train_three_layer ex_X ex_y 2 1 (/ 100) 3000 rng0 = Ok (P, costs, out, g')
    /\ length costs = 30%nat.
Proof.
  destruct (train_epochs_in_order ex_X ex_y 2 1 (/ 100) 3000 rng0 2 1 2)
    as (P0 & g' & P & costs & _ & HT & _ & HL & _).
  - reflexivity.
  - reflexivity.
  - lia.
  - lia.
  - exists P, costs. eexists. exists g'. split; [exact HT | exact HL].
Defined.

(** C4, as the code has it.  Initialization takes exactly four widths.
    Whenever one of them is negative it fails, and no parameter set is
    returned. *)
Theorem initialize_rejects_negative_width (n_x n_h1 n_h2 n_y : Z) (g : rng) :
  (n_x < 0 \/ n_h1 < 0 \/ n_h2 < 0 \/ n_y < 0)%Z ->
  (exists e, initialize_parameters_3layer n_x n_h1 n_h2 n_y g = Raise e)
  /\ forall P g', initialize_parameters_3layer n_x n_h1 n_h2 n_y g <> Ok (P, g').
Proof.
  intros H. rewrite (initialize_neg n_x n_h1 n_h2 n_y g H). split.
  - exists ValueError. reflexivity.
  - intros P g' E. discriminate E.
Qed.

Lemma initialize_rejects_negative_width_witness :
  (exists e, initialize_parameters_3layer 2 (-1) 3 1 rng0 = Raise e)
  /\ forall P g', initialize_parameters_3layer 2 (-1) 3 1 rng0 <> Ok (P, g').
Proof. apply (initialize_rejects_negative_width 2 (-1) 3 1 rng0). lia. Defined.

(** C4 fails as stated: the width 0 is not positive, and initialization
    with the widths 2, 0, 3, 1 returns a parameter set. *)
Lemma initialize_accepts_zero_width :
  (0 <= 0)%Z
  /\ exists P g',
       initialize_parameters_3layer 2 0 3 1 rng0 = Ok (P, g')
       /\ shape (W1 P) = (0%nat, 2%nat) /\ shape (b1 P) = (0%nat, 1%nat)
       /\ shape (W2 P) = (3%nat, 0%nat).
Proof.
  split; [lia|]. eexists. eexists. split; [reflexivity|].
  repeat split.
Qed.

(** C5, as the code has it.  The update checks nothing about the learning
    rate: for every [alpha], positive or not, and parameters and gradients of
    matching shapes it returns [W - alpha . dW] and [b - alpha . db] for the
    three layers. *)
Theorem update_any_learning_rate (P : params) (G : grads) (alpha : R)
    (n0 n1 n2 n3 : nat) :
  params_shape n0 n1 n2 n3 P -> grads_shape n0 n1 n2 n3 G ->
  update_parameters_3layer P G alpha
  = Ok (mk_params
          (spec_step alpha (W1 P) (dW1 G)) (spec_step alpha (b1 P) (db1 G))
          (spec_step alpha (W2 P) (dW2 G)) (spec_step alpha (b2 P) (db2 G))
          (spec_step alpha (W3 P) (dW3 G)) (spec_step alpha (b3 P) (db3 G)))
  /\ (forall W dW i j, (i < nrows W)%nat -> (j < ncols W)%nat ->
        get (spec_step alpha W dW) i j = get W i j - alpha * get dW i j).
Proof.
  intros HP HG. split.
  - exact (update_ok P G alpha n0 n1 n2 n3 HP HG).
  - intros W dW i j Hi Hj. unfold spec_step. now rewrite get_build.
Qed.

Lemma update_any_learning_rate_witness :
  update_parameters_3layer ex_P ex_G 0 = Ok (spec_update ex_P ex_G 0).
Proof.
  apply (update_any_learning_rate ex_P ex_G 0 2 2 1 1); repeat split; reflexivity.
Defined.

(** C5 fails as stated: the learning rate -1 is not positive, and the update
    is applied with it; every parameter moves up its gradient. *)
Lemma update_accepts_negative_rate :
  -1 <= 0
  /\ update_parameters_3layer tiny_Pa tiny_G (-1)
     = Ok (mk_params (one 0) (one 1) (one 2) (one 1) (one 2) (one 1)).
Proof. split; [lra | exact tiny_update_uphill]. Qed.

(** C6, as the code has it.  The forward pass returns the three
    post-activations and nothing else; within an epoch these are the cache
    the cost and the backward pass of the same epoch receive, together with
    the parameters the forward pass ran on. *)
Theorem forward_cache_reaches_backward (X y : ndarray) (P : params) (alpha : R)
    (n0 n1 n2 n3 m : nat) :
  params_shape n0 n1 n2 n3 P -> shape X = (n0, m) -> shape y = (n3, m) ->
  exists Z1 Z2 Z3 cost G P',
    linear (W1 P) X (b1 P) = Ok Z1
    /\ linear (W2 P) (relu Z1) (b2 P) = Ok Z2
    /\ linear (W3 P) (relu Z2) (b3 P) = Ok Z3
    /\ forward_propagation_3layer X P = Ok (relu Z1, relu Z2, sigmoid Z3)
    /\ compute_cost_3layer (sigmoid Z3) y = Ok cost
    /\ backward_propagation_3layer X y (relu Z1) (relu Z2) (sigmoid Z3) (W2 P) (W3 P)
       = Ok G
    /\ update_parameters_3layer P G alpha = Ok P'
    /\ forall i s, ls_params s = P ->
         epoch_body X y alpha i s
         = Ok (if (i mod 100 =? 0)%nat
               then mk_loop_state P' (ls_costs s ++ [cost]) (ls_stdout s ++ [(i, cost)])
               else mk_loop_state P' (ls_costs s) (ls_stdout s)).
Proof.
  intros HP HX Hy.
  pose proof (forward_ok X P n0 n1 n2 n3 m HP HX) as HF.
  pose proof (shape_spec_A1 X P _ _ _ _ _ HP HX) as HA1.
  pose proof (shape_spec_A2 X P _ _ _ _ _ HP HX) as HA2.
  pose proof (shape_spec_A3 X P _ _ _ _ _ HP HX) as HA3.
  assert (HC : cache_shape n0 n1 n2 n3 m X y (spec_A1 X P) (spec_A2 X P) (spec_A3 X P))
    by (repeat split; assumption).
  pose proof (spec_grads_shape X y _ _ _ (W2 P) (W3 P) _ _ _ _ _ HC) as HG.
  pose proof HP as (HW1 & Hb1 & HW2 & Hb2 & HW3 & Hb3).
  pose proof (backward_ok X y _ _ _ (W2 P) (W3 P) _ _ _ _ _ HC HW2 HW3) as HB.
  pose proof (update_ok P _ alpha n0 n1 n2 n3 HP HG) as HU.
  assert (Hcost : exists cost, compute_cost_3layer (spec_A3 X P) y = Ok cost).
  { eexists. apply cost_ok_any.
    - apply shape_inv in HA3, Hy. destruct HA3, Hy. congruence.
    - apply shape_inv in HA3, Hy. destruct HA3, Hy. congruence. }
  destruct Hcost as [cost Hcost].
  exists (spec_Z1 X P), (spec_Z2 X P), (spec_Z3 X P), cost.
  eexists. eexists.
  rewrite !relu_spec, sigmoid_spec.
  change (spec_relu (spec_Z1 X P)) with (spec_A1 X P).
  change (spec_relu (spec_Z2 X P)) with (spec_A2 X P).
  change (spec_sigmoid (spec_Z3 X P)) with (spec_A3 X P).
  split; [apply (linear_ok _ _ _ n1 n0 m); assumption|].
  split; [apply (linear_ok _ _ _ n2 n1 m); assumption|].
  split; [apply (linear_ok _ _ _ n3 n2 m); assumption|].
  split; [exact HF|]. split; [exact Hcost|]. split; [exact HB|]. split; [exact HU|].
  intros i s Hs. unfold epoch_body. cbv zeta. rewrite Hs, HF. cbn [bind].
  rewrite Hcost. cbn [bind]. rewrite HB. cbn [bind]. rewrite HU. cbn [bind].
  destruct (i mod 100 =? 0)%nat; reflexivity.
Qed.

Lemma forward_cache_reaches_backward_witness :
  exists Z1 Z2 Z3 G,
    forward_propagation_3layer ex_X ex_P = Ok (relu Z1, relu Z2, sigmoid Z3)
    /\ backward_propagation_3layer ex_X ex_y (relu Z1) (relu Z2) (sigmoid Z3)
         (W2 ex_P) (W3 ex_P) = Ok G.
Proof.
  destruct (forward_cache_reaches_backward ex_X ex_y ex_P (/ 100) 2 2 1 1 2)
    as (Z1 & Z2 & Z3 & cost & G & P' & _ & _ & _ & HF & _ & HB & _).
  - repeat split; reflexivity.
  - reflexivity.
  - reflexivity.
  - exists Z1, Z2, Z3, G. split; assumption.
Defined.

(** C6 fails as stated: two forward passes on the same input whose first
    pre-activations differ (-1 and -2) return the same cache, so no
    pre-activation of the first layer can be read off what the forward pass
    hands on. *)
Lemma forward_forgets_preactivations :
  linear (W1 tiny_Pa) tiny_X (b1 tiny_Pa) = Ok (one (-1))
  /\ linear (W1 tiny_Pb) tiny_X (b1 tiny_Pb) = Ok (one (-2))
  /\ forward_propagation_3layer tiny_X tiny_Pa = Ok (one 0, one 0, one (/ 2))
  /\ forward_propagation_3layer tiny_X tiny_Pb = Ok (one 0, one 0, one (/ 2))
  /\ ~ (exists recover : ndarray * ndarray * ndarray -> ndarray,
          forall X P cache Z1,
            forward_propagation_3layer X P = Ok cache ->
            linear (W1 P) X (b1 P) = Ok Z1 ->
            recover cache = Z1).
Proof.
  split; [exact tiny_linear_a|]. split; [exact tiny_linear_b|].
  split; [exact tiny_forward_a|]. split; [exact tiny_forward_b|].
  intros [recover H].
  pose proof (H tiny_X tiny_Pa _ _ tiny_forward_a tiny_linear_a) as Ea.
  pose proof (H tiny_X tiny_Pb _ _ tiny_forward_b tiny_linear_b) as Eb.
  rewrite Ea in Eb. unfold one in Eb. inversion Eb as [E]. lra.
Qed.

(** C10.  Run on a store, cost computation, backward propagation and the
    update only add objects: whenever a stage completes, the store it leaves
    is the store it started from followed by new arrays, so every array that
    existed before (X, y, the cache, the parameters, the gradients) is
    unchanged; the values it returns are those of the stage on the values of
    its arguments; a stage raises exactly when the stage on values does.  The
    update returns references to new arrays, which hold [W - alpha . dW] and
    [b - alpha . db]. *)
Theorem stages_do_not_mutate (h : Store.heap) (P : Store.params_ref)
    (G : Store.grads_ref) (X y A1 A2 A3 : Store.ref) (alpha : R) :
  Store.params_valid h P -> Store.grads_valid h G ->
  (X < length h)%nat -> (y < length h)%nat -> (A1 < length h)%nat ->
  (A2 < length h)%nat -> (A3 < length h)%nat ->
  match Store.compute_cost_3layer A3 y h with
  | Ok (c, h') =>
      Store.extends h h'
      /\ compute_cost_3layer (Store.deref h A3) (Store.deref h y) = Ok c
  | Raise e => compute_cost_3layer (Store.deref h A3) (Store.deref h y) = Raise e
  end
  /\ match Store.backward_propagation_3layer X y A1 A2 A3 (Store.rW2 P) (Store.rW3 P) h with
     | Ok (Gr, h') =>
         Store.extends h h'
         /\ backward_propagation_3layer (Store.deref h X) (Store.deref h y)
              (Store.deref h A1) (Store.deref h A2) (Store.deref h A3)
              (Store.deref h (Store.rW2 P)) (Store.deref h (Store.rW3 P))
            = Ok (Store.deref_grads h' Gr)
     | Raise e =>
         backward_propagation_3layer (Store.deref h X) (Store.deref h y)
           (Store.deref h A1) (Store.deref h A2) (Store.deref h A3)
           (Store.deref h (Store.rW2 P)) (Store.deref h (Store.rW3 P))
         = Raise e
     end
  /\ match Store.update_parameters_3layer P G alpha h with
     | Ok (Pr, h') =>
         Store.extends h h' /\ Store.params_fresh h Pr
         /\ update_parameters_3layer (Store.deref_params h P) (Store.deref_grads h G) alpha
            = Ok (Store.deref_params h' Pr)
         /\ Store.deref_params h' P = Store.deref_params h P
         /\ Store.deref_grads h' G = Store.deref_grads h G
     | Raise e =>
         update_parameters_3layer (Store.deref_params h P) (Store.deref_grads h G) alpha
         = Raise e
     end
  /\ (forall h', Store.extends h h' ->
        forall r, (r < length h)%nat -> Store.deref h' r = Store.deref h r)
  /\ (forall n0 n1 n2 n3,
        params_shape n0 n1 n2 n3 (Store.deref_params h P) ->
        grads_shape n0 n1 n2 n3 (Store.deref_grads h G) ->
        exists Pr h',
          Store.update_parameters_3layer P G alpha h = Ok (Pr, h')
          /\ Store.extends h h' /\ Store.params_fresh h Pr
          /\ Store.deref_params h' Pr
             = spec_update (Store.deref_params h P) (Store.deref_grads h G) alpha).
Proof.
  intros VP VG VX Vy VA1 VA2 VA3.
  pose proof (StoreFacts.cost_sim h A3 y VA3 Vy) as HC.
  assert (VW : (Store.rW2 P < length h /\ Store.rW3 P < length h)%nat)
    by (destruct VP as (_ & _ & ? & _ & ? & _); split; assumption).
  destruct VW as [VW2 VW3].
  pose proof (StoreFacts.backward_sim h X y A1 A2 A3 _ _ VX Vy VA1 VA2 VA3 VW2 VW3) as HB.
  pose proof (StoreFacts.update_sim h P G alpha VP VG) as HU.
  split; [|split; [|split; [|split]]].
  - destruct (compute_cost_3layer _ _) as [c|e].
    + destruct HC as (h' & -> & Hext). split; [exact Hext | reflexivity].
    + rewrite HC. reflexivity.
  - destruct (backward_propagation_3layer _ _ _ _ _ _ _) as [Gv|e].
    + destruct HB as (Gr & h' & -> & Hext & <-). split; [exact Hext | reflexivity].
    + rewrite HB. reflexivity.
  - destruct (update_parameters_3layer _ _ _) as [Pv|e].
    + destruct HU as (Pr & h' & -> & Hext & <- & Hfresh).
      split; [exact Hext|]. split; [exact Hfresh|]. split; [reflexivity|].
      destruct VP as (V1 & V2 & V3 & V4 & V5 & V6).
      destruct VG as (U1 & U2 & U3 & U4 & U5 & U6).
      unfold Store.deref_params, Store.deref_grads.
      rewrite !(StoreFacts.extends_deref h h') by assumption. split; reflexivity.
    + rewrite HU. reflexivity.
  - intros h' Hext r Hr. now apply StoreFacts.extends_deref.
  - intros n0 n1 n2 n3 HPs HGs.
    rewrite (update_ok _ _ alpha n0 n1 n2 n3 HPs HGs) in HU.
    destruct HU as (Pr & h' & Hrun & Hext & Hval & Hfresh).
    exists Pr, h'. split; [exact Hrun|]. split; [exact Hext|].
    split; [exact Hfresh | exact Hval].
Qed.

Lemma stages_do_not_mutate_witness :
  exists Pr h',
    Store.update_parameters_3layer ex_Pr ex_Gr (/ 100) ex_heap = Ok (Pr, h')
    /\ Store.extends ex_heap h' /\ Store.params_fresh ex_heap Pr
    /\ Store.deref_params h' Pr = spec_update ex_P ex_G (/ 100).
Proof.
  destruct (stages_do_not_mutate ex_heap ex_Pr ex_Gr 12%nat 13%nat 14%nat 15%nat 16%nat
              (/ 100))
    as (_ & _ & _ & _ & H).
  - unfold Store.params_valid. cbn. lia.
  - unfold Store.grads_valid. cbn. lia.
  - cbn. lia.
  - cbn. lia.
  - cbn. lia.
  - cbn. lia.
  - cbn. lia.
  - apply (H 2 2 1 1)%nat; repeat split; reflexivity.
Defined.

(** ** Further properties of the notebook's functions *)

Lemma rsum_zero (n : nat) (f : nat -> R) :
  (forall k, (k < n)%nat -> f k = 0) -> rsum n f = 0.
Proof.
  induction n as [|n IH]; intros H; cbn [rsum]; [reflexivity|].
  rewrite IH by (intros k Hk; apply H; lia). rewrite H by lia. lra.
Qed.

Lemma rsum_const (n : nat) (c : R) : rsum n (fun _ => c) = INR n * c.
Proof.
  induction n as [|n IH]; [cbn; lra|].
  cbn [rsum]. rewrite IH, S_INR. lra.
Qed.

Lemma rsum_nonpos (n : nat) (f : nat -> R) :
  (forall k, (k < n)%nat -> f k <= 0) -> rsum n f <= 0.
Proof.
  induction n as [|n IH]; intros H; cbn [rsum]; [lra|].
  assert (rsum n f <= 0) by (apply IH; intros k Hk; apply H; lia).
  assert (f n <= 0) by (apply H; lia). lra.
Qed.

Lemma sigmoid_entry (Z : ndarray) (i j : nat) :
  (i < nrows Z)%nat -> (j < ncols Z)%nat ->
  get (sigmoid Z) i j = 1 / (1 + exp (- get Z i j)).
Proof.
  intros Hi Hj. rewrite sigmoid_spec. unfold spec_sigmoid.
  now rewrite get_build.
Qed.

Lemma relu_entry (Z : ndarray) (i j : nat) :
  (i < nrows Z)%nat -> (j < ncols Z)%nat ->
  get (relu Z) i j = Rmax 0 (get Z i j).
Proof.
  intros Hi Hj. rewrite relu_spec. unfold spec_relu. now rewrite get_build.
Qed.

Lemma logistic_range (z : R) : 0 < 1 / (1 + exp (- z)) < 1.
Proof.
  pose proof (exp_pos (- z)) as He.
  assert (Hd : 0 < 1 + exp (- z)) by lra.
  split.
  - apply Rdiv_lt_0_compat; lra.
  - apply (Rmult_lt_reg_r (1 + exp (- z))); [exact Hd|].
    unfold Rdiv. rewrite Rmult_assoc, Rinv_l by lra. lra.
Qed.

(** X1.  The sigmoid keeps the shape of its argument, every entry of its
    result lies between 0 and 1, and where the argument is 0 the result is
    1/2. *)
Theorem sigmoid_range (Z : ndarray) (i j : nat) :
  (i < nrows Z)%nat -> (j < ncols Z)%nat ->
  shape (sigmoid Z) = shape Z
  /\ 0 <= get (sigmoid Z) i j <= 1
  /\ (get Z i j = 0 -> get (sigmoid Z) i j = / 2).
Proof.
  intros Hi Hj. split; [reflexivity|].
  rewrite sigmoid_entry by assumption.
  pose proof (logistic_range (get Z i j)) as [H0 H1].
  split; [split; lra|].
  intros ->. rewrite Ropp_0, exp_0. lra.
Qed.

Lemma sigmoid_range_witness : 0 <= get (sigmoid ex_X) 1 0 <= 1.
Proof. apply (sigmoid_range ex_X 1 0); cbn; lia. Defined.

(** X3.  ReLU keeps the shape, its entries are never negative, it leaves an
    entry that is not negative as it is and sends every other entry to 0;
    applying it twice is applying it once. *)
Theorem relu_properties (Z : ndarray) (i j : nat) :
  (i < nrows Z)%nat -> (j < ncols Z)%nat ->
  shape (relu Z) = shape Z
  /\ 0 <= get (relu Z) i j
  /\ (0 <= get Z i j -> get (relu Z) i j = get Z i j)
  /\ (get Z i j <= 0 -> get (relu Z) i j = 0)
  /\ relu (relu Z) = relu Z.
Proof.
  intros Hi Hj. split; [reflexivity|].
  rewrite relu_entry by assumption.
  split; [apply Rmax_l|].
  split; [intros H; now apply Rmax_right|].
  split; [intros H; now apply Rmax_left|].
  unfold relu, maximum, map_arr. cbn [nrows ncols build].
  apply build_ext. intros a b Ha Hb. rewrite get_build by assumption.
  apply Rmax_right. apply Rmax_l.
Qed.

Lemma relu_properties_witness : relu (relu ex_X) = relu ex_X.
Proof. apply (relu_properties ex_X 0 0); cbn; lia. Defined.

Lemma map_arr_build (h : R -> R) (r c : nat) (f : nat -> nat -> R) :
  map_arr h (build r c f) = build r c (fun i j => h (f i j)).
Proof.
  unfold map_arr. cbn [nrows ncols build]. apply build_ext.
  intros i j Hi Hj. now rewrite get_build.
Qed.

Lemma ltb_nonneg (d : Z) : (0 <= d)%Z -> (d <? 0)%Z = false.
Proof. intros H. apply Z.ltb_ge. exact H. Qed.

Lemma initialize_value (n_x n_h1 n_h2 n_y : Z) (g : rng) :
  (0 <= n_x)%Z -> (0 <= n_h1)%Z -> (0 <= n_h2)%Z -> (0 <= n_y)%Z ->
  let n0 := Z.to_nat n_x in
  let n1 := Z.to_nat n_h1 in
  let n2 := Z.to_nat n_h2 in
  let n3 := Z.to_nat n_y in
  initialize_parameters_3layer n_x n_h1 n_h2 n_y g
  = Ok (mk_params
          (build n1 n0 (fun i j => g (i * n0 + j)%nat * / 100))
          (build n1 1 (fun _ _ => 0))
          (build n2 n1 (fun i j => g (n1 * n0 + (i * n1 + j))%nat * / 100))
          (build n2 1 (fun _ _ => 0))
          (build n3 n2 (fun i j => g (n1 * n0 + (n2 * n1 + (i * n2 + j)))%nat * / 100))
          (build n3 1 (fun _ _ => 0)),
        fun k => g (n1 * n0 + (n2 * n1 + (n3 * n2 + k)))%nat).
Proof.
  intros Hx H1 H2 Hy n0 n1 n2 n3.
  unfold initialize_parameters_3layer, randn, zeros.
  rewrite !(ltb_nonneg n_x), !(ltb_nonneg n_h1), !(ltb_nonneg n_h2),
    !(ltb_nonneg n_y) by assumption.
  change (1 <? 0)%Z with false. cbn [orb bind].
  unfold mul_scalar. rewrite !map_arr_build. reflexivity.
Qed.

(** X4.  For widths that are not negative, initialization fills the three
    weight matrices row by row with consecutive samples of the generator,
    each times 0.01: first [W1], then [W2], then [W3]; the biases are zero
    columns; the generator is left advanced by the number of weights. *)
Theorem initialize_layout (n_x n_h1 n_h2 n_y : Z) (g : rng) :
  (0 <= n_x)%Z -> (0 <= n_h1)%Z -> (0 <= n_h2)%Z -> (0 <= n_y)%Z ->
  let n0 := Z.to_nat n_x in
  let n1 := Z.to_nat n_h1 in
  let n2 := Z.to_nat n_h2 in
  let n3 := Z.to_nat n_y in
  initialize_parameters_3layer n_x n_h1 n_h2 n_y g
  = Ok (mk_params
          (build n1 n0 (fun i j => g (i * n0 + j)%nat * / 100))
          (build n1 1 (fun _ _ => 0))
          (build n2 n1 (fun i j => g (n1 * n0 + (i * n1 + j))%nat * / 100))
          (build n2 1 (fun _ _ => 0))
          (build n3 n2 (fun i j => g (n1 * n0 + (n2 * n1 + (i * n2 + j)))%nat * / 100))
          (build n3 1 (fun _ _ => 0)),
        fun k => g (n1 * n0 + (n2 * n1 + (n3 * n2 + k)))%nat).
Proof. exact (initialize_value n_x n_h1 n_h2 n_y g). Qed.

Lemma initialize_layout_witness :
  exists P g', initialize_parameters_3layer 2 4 3 1 rng0 = Ok (P, g')
               /\ b1 P = build 4 1 (fun _ _ => 0).
Proof.
  eexists. eexists. split.
  - apply (initialize_layout 2 4 3 1 rng0); lia.
  - reflexivity.
Defined.

(** X5.  When the number of rows of the input differs from the number of
    columns of [W1], the forward pass raises [ValueError]. *)
Theorem forward_rejects_feature_mismatch (X : ndarray) (P : params) :
  ncols (W1 P) <> nrows X ->
  forward_propagation_3layer X P = Raise ValueError.
Proof.
  intros H. unfold forward_propagation_3layer, linear, dot.
  apply Nat.eqb_neq in H. rewrite H. reflexivity.
Qed.

Lemma forward_rejects_feature_mismatch_witness :
  forward_propagation_3layer (mk_ndarray 3 1 [[1]; [1]; [1]]) ex_P = Raise ValueError.
Proof. apply forward_rejects_feature_mismatch. cbn. lia. Defined.

Lemma ln_neg (a : R) : 0 < a < 1 -> ln a < 0.
Proof. intros [H0 H1]. rewrite <- ln_1. now apply ln_increasing. Qed.

Lemma cross_entropy_term_nonpos (a y : R) :
  0 < a < 1 -> 0 <= y <= 1 -> y * ln a + (1 - y) * ln (1 - a) <= 0.
Proof.
  intros Ha Hy.
  assert (H1 : ln a < 0) by (apply ln_neg; lra).
  assert (H2 : ln (1 - a) < 0) by (apply ln_neg; lra).
  nra.
Qed.

Lemma cost_nonneg_any (A3 y : ndarray) :
  nrows A3 = nrows y -> ncols A3 = ncols y ->
  (forall i j, (i < nrows A3)%nat -> (j < ncols A3)%nat -> 0 < get A3 i j < 1) ->
  unit_entries y ->
  exists c, compute_cost_3layer A3 y = Ok c /\ 0 <= c.
Proof.
  intros Hr Hc HA Hy. rewrite (cost_ok_any A3 y Hr Hc). eexists. split; [reflexivity|].
  set (S := rsum (nrows y) _).
  assert (HS : S <= 0).
  { subst S. apply rsum_nonpos. intros i Hi. apply rsum_nonpos. intros j Hj.
    apply cross_entropy_term_nonpos.
    - apply HA; congruence.
    - apply Hy; assumption. }
  destruct (ncols y) as [|m].
  - cbn [INR]. unfold Rdiv. rewrite Rinv_0. lra.
  - assert (0 < INR (Datatypes.S m)) by (apply lt_0_INR; lia).
    assert (0 < / INR (Datatypes.S m)) by now apply Rinv_0_lt_compat.
    unfold Rdiv. nra.
Qed.

(** X7.  For an output with at least one column whose entries lie strictly
    between 0 and 1 and labels of the same shape whose entries lie between 0
    and 1, the cost is computed and is not negative. *)
Theorem cost_nonnegative (A3 y : ndarray) :
  nrows A3 = nrows y -> ncols A3 = ncols y -> (1 <= ncols y)%nat ->
  (forall i j, (i < nrows A3)%nat -> (j < ncols A3)%nat -> 0 < get A3 i j < 1) ->
  (forall i j, (i < nrows y)%nat -> (j < ncols y)%nat -> 0 <= get y i j <= 1) ->
  exists c, compute_cost_3layer A3 y = Ok c /\ 0 <= c.
Proof. intros Hr Hc _ HA Hy. now apply cost_nonneg_any. Qed.

Lemma cost_nonnegative_witness :
  exists c, compute_cost_3layer ex_A3 ex_y = Ok c /\ 0 <= c.
Proof.
  apply (cost_nonnegative ex_A3 ex_y).
  - reflexivity.
  - reflexivity.
  - cbn. lia.
  - intros i j Hi Hj. cbn in Hi, Hj.
    destruct i as [|i]; [|lia]. destruct j as [|[|j]]; cbn; [lra | lra | lia].
  - intros i j Hi Hj. cbn in Hi, Hj.
    destruct i as [|i]; [|lia]. destruct j as [|[|j]]; cbn; [lra | lra | lia].
Defined.

Lemma bdim_mismatch (a b : nat) :
  a <> b -> a <> 1%nat -> b <> 1%nat -> bdim a b = Raise ValueError.
Proof.
  intros Hab Ha Hb. unfold bdim.
  apply Nat.eqb_neq in Hab, Ha, Hb. now rewrite Hab, Ha, Hb.
Qed.

Lemma broadcast2_mismatch (f : R -> R -> R) (A B : ndarray) :
  (nrows A <> nrows B /\ nrows A <> 1%nat /\ nrows B <> 1%nat)
  \/ (ncols A <> ncols B /\ ncols A <> 1%nat /\ ncols B <> 1%nat) ->
  broadcast2 f A B = Raise ValueError.
Proof.
  intros [(H1 & H2 & H3)|(H1 & H2 & H3)]; unfold broadcast2.
  - now rewrite bdim_mismatch.
  - rewrite (bdim_mismatch (ncols A) (ncols B)) by assumption.
    destruct (bdim (nrows A) (nrows B)) as [r|[]]; reflexivity.
Qed.

(** X8.  When the labels and the output differ in the number of rows or of
    columns and neither of the two numbers is 1, so that the two arrays
    cannot be broadcast, cost computation raises [ValueError]. *)
Theorem cost_rejects_shape_mismatch (A3 y : ndarray) :
  (nrows y <> nrows A3 /\ nrows y <> 1%nat /\ nrows A3 <> 1%nat)
  \/ (ncols y <> ncols A3 /\ ncols y <> 1%nat /\ ncols A3 <> 1%nat) ->
  compute_cost_3layer A3 y = Raise ValueError.
Proof.
  intros H. unfold compute_cost_3layer, mul.
  rewrite (broadcast2_mismatch Rmult y (np_log A3)) by exact H. reflexivity.
Qed.

Lemma cost_rejects_shape_mismatch_witness :
  compute_cost_3layer ex_A3 (mk_ndarray 1 3 [[1; 0; 1]]) = Raise ValueError.
Proof. apply cost_rejects_shape_mismatch. right. cbn. lia. Defined.

Lemma bdim_one_l (b : nat) : bdim 1 b = Ok b.
Proof.
  unfold bdim. destruct (1 =? b)%nat eqn:E; [|reflexivity].
  apply Nat.eqb_eq in E. now subst.
Qed.

(** A single entry on the left is broadcast over a whole row. *)
Lemma broadcast2_scalar_row (f : R -> R -> R) (y A : ndarray) :
  shape y = (1%nat, 1%nat) -> nrows A = 1%nat ->
  broadcast2 f y A
  = Ok (build 1 (ncols A) (fun i j => f (get y 0 0) (get A 0 j))).
Proof.
  intros Hy HA. apply shape_inv in Hy. destruct Hy as [Hr Hc].
  unfold broadcast2. rewrite Hr, Hc, HA, bdim_same, bdim_one_l. cbn [bind].
  f_equal. apply build_ext. intros i j Hi Hj.
  unfold bidx at 1 2 3. cbn [Nat.eqb].
  rewrite bidx_lt by assumption. reflexivity.
Qed.

(** X9.  Labels of shape (1, 1) against an output of shape (1, m) are not
    rejected: the single label is used for every sample, and the sum is
    divided by the labels' column count 1, not by m. *)
Theorem cost_broadcasts_single_label (A3 y : ndarray) (m : nat) :
  shape A3 = (1%nat, m) -> shape y = (1%nat, 1%nat) ->
  compute_cost_3layer A3 y
  = Ok (- rsum m (fun j => get y 0 0 * ln (get A3 0 j)
                           + (1 - get y 0 0) * ln (1 - get A3 0 j))).
Proof.
  intros HA Hy. pose proof Hy as Hy'. apply shape_inv in HA, Hy'.
  destruct HA as [HAr HAc]. destruct Hy' as [Hyr Hyc].
  unfold compute_cost_3layer, mul, add.
  rewrite (broadcast2_scalar_row Rmult y (np_log A3)) by (assumption || exact HAr).
  cbn [bind].
  rewrite (broadcast2_scalar_row Rmult (scalar_sub 1 y) (np_log (scalar_sub 1 A3)))
    by (unfold scalar_sub, np_log, map_arr, shape; cbn [nrows ncols build]; congruence).
  cbn [bind].
  rewrite broadcast2_same by reflexivity. cbn [bind].
  unfold Np.sum, np_log, scalar_sub, map_arr. cbn [nrows ncols build rsum].
  rewrite Hyc, HAc. cbn [INR]. f_equal.
  assert (E : forall a b : R, a = b -> - (0 + a) / 1 = - b) by (intros a b ->; lra).
  apply E. apply rsum_ext. intros j Hj.
  rewrite !get_build by lia. reflexivity.
Qed.

Lemma cost_broadcasts_single_label_witness :
  exists c, compute_cost_3layer ex_A3 (one 1) = Ok c.
Proof.
  eexists. apply (cost_broadcasts_single_label ex_A3 (one 1) 2); reflexivity.
Defined.

Lemma dZ_hidden_entry (W_next dZ_next S : ndarray) (i j : nat) :
  (i < nrows S)%nat -> (j < ncols S)%nat ->
  get (spec_dZ_hidden W_next dZ_next S) i j
  = rsum (nrows W_next) (fun k => get W_next k i * get dZ_next k j)
    * spec_relu_grad (get S i j).
Proof. intros Hi Hj. unfold spec_dZ_hidden. now rewrite get_build. Qed.

Lemma dW_entry (m : nat) (dZ A_prev : ndarray) (i j : nat) :
  (i < nrows dZ)%nat -> (j < nrows A_prev)%nat ->
  get (spec_dW m dZ A_prev) i j
  = 1 / INR m * rsum m (fun k => get dZ i k * get A_prev j k).
Proof. intros Hi Hj. unfold spec_dW. now rewrite get_build. Qed.

Lemma db_entry (m : nat) (dZ : ndarray) (i : nat) :
  (i < nrows dZ)%nat ->
  get (spec_db m dZ) i 0 = 1 / INR m * rsum m (fun k => get dZ i k).
Proof. intros Hi. unfold spec_db. now rewrite get_build by lia. Qed.

(** A row of [dZ] that is zero gives a zero row of [dW] and a zero [db]. *)
Lemma zero_row_no_gradient (m : nat) (dZ A_prev : ndarray) (i : nat) :
  (i < nrows dZ)%nat ->
  (forall k, (k < m)%nat -> get dZ i k = 0) ->
  (forall j, (j < nrows A_prev)%nat -> get (spec_dW m dZ A_prev) i j = 0)
  /\ get (spec_db m dZ) i 0 = 0.
Proof.
  intros Hi Hz. split.
  - intros j Hj. rewrite dW_entry by assumption.
    rewrite rsum_zero; [lra|]. intros k Hk. rewrite Hz by assumption. lra.
  - rewrite db_entry by assumption. rewrite rsum_zero; [lra | exact Hz].
Qed.

Lemma all_zero_dW_db (m : nat) (dZ A_prev : ndarray) :
  ncols dZ = m -> all_zero dZ ->
  all_zero (spec_dW m dZ A_prev) /\ all_zero (spec_db m dZ).
Proof.
  intros Hc Hz. split; intros i j Hi Hj.
  - cbn [spec_dW nrows ncols build] in Hi, Hj.
    apply (zero_row_no_gradient m dZ A_prev i Hi); [|exact Hj].
    intros k Hk. apply Hz; [exact Hi | lia].
  - cbn [spec_db nrows ncols build] in Hi, Hj.
    assert (j = 0%nat) by lia. subst j.
    apply (zero_row_no_gradient m dZ dZ i Hi).
    intros k Hk. apply Hz; [exact Hi | lia].
Qed.

Lemma all_zero_dZ_hidden (W_next dZ_next S : ndarray) :
  nrows W_next = nrows dZ_next -> ncols S = ncols dZ_next ->
  all_zero dZ_next -> all_zero (spec_dZ_hidden W_next dZ_next S).
Proof.
  intros Hr Hc Hz i j Hi Hj. cbn [spec_dZ_hidden nrows ncols build] in Hi, Hj.
  rewrite dZ_hidden_entry by assumption.
  rewrite rsum_zero; [lra|]. intros k Hk. rewrite Hz by lia. lra.
Qed.

(** X10.  On a batch of at least one sample, when the output in the cache
    equals the labels entry by entry, all six gradients the backward pass
    returns are zero arrays.  (Every product in them has the factor
    [A3 - y = 0]; the entries of the arrays are numbers, not infinities.) *)
Theorem backward_zero_at_perfect_prediction (X y A1 A2 A3 W2 W3 : ndarray)
    (n0 n1 n2 n3 m : nat) :
  (1 <= m)%nat ->
  cache_shape n0 n1 n2 n3 m X y A1 A2 A3 ->
  shape W2 = (n2, n1) -> shape W3 = (n3, n2) ->
  (forall i j, (i < n3)%nat -> (j < m)%nat -> get A3 i j = get y i j) ->
  exists G,
    backward_propagation_3layer X y A1 A2 A3 W2 W3 = Ok G
    /\ all_zero (dW1 G) /\ all_zero (db1 G)
    /\ all_zero (dW2 G) /\ all_zero (db2 G)
    /\ all_zero (dW3 G) /\ all_zero (db3 G).
Proof.
  intros _ HC HW2 HW3 Heq.
  pose proof (backward_ok X y A1 A2 A3 W2 W3 n0 n1 n2 n3 m HC HW2 HW3) as HB.
  destruct HC as (HX & Hy & HA1 & HA2 & HA3). shapes.
  exists (spec_grads X y A1 A2 A3 W2 W3). split; [exact HB|].
  unfold spec_grads. cbv zeta. cbn [dW1 db1 dW2 db2 dW3 db3].
  set (dZ3 := spec_dZ_out A3 y).
  set (dZ2 := spec_dZ_hidden W3 dZ3 A2).
  set (dZ1 := spec_dZ_hidden W2 dZ2 A1).
  assert (Z3 : all_zero dZ3).
  { intros i j Hi Hj. subst dZ3. cbn [spec_dZ_out nrows ncols build] in Hi, Hj.
    unfold spec_dZ_out. rewrite get_build by assumption.
    rewrite Heq by congruence. lra. }
  assert (Z2 : all_zero dZ2).
  { subst dZ2. apply all_zero_dZ_hidden; [| |exact Z3];
      subst dZ3; cbn [spec_dZ_out nrows ncols build]; congruence. }
  assert (Z1 : all_zero dZ1).
  { subst dZ1. apply all_zero_dZ_hidden; [| |exact Z2];
      subst dZ2; cbn [spec_dZ_hidden nrows ncols build]; congruence. }
  assert (C3 : ncols dZ3 = ncols X)
    by (subst dZ3; cbn [spec_dZ_out nrows ncols build]; congruence).
  assert (C2 : ncols dZ2 = ncols X)
    by (subst dZ2; cbn [spec_dZ_hidden nrows ncols build]; congruence).
  assert (C1 : ncols dZ1 = ncols X)
    by (subst dZ1; cbn [spec_dZ_hidden nrows ncols build]; congruence).
  destruct (all_zero_dW_db (ncols X) dZ1 X C1 Z1) as [? ?].
  destruct (all_zero_dW_db (ncols X) dZ2 A1 C2 Z2) as [? ?].
  destruct (all_zero_dW_db (ncols X) dZ3 A2 C3 Z3) as [? ?].
  repeat split; assumption.
Qed.

Lemma backward_zero_at_perfect_prediction_witness :
  exists G,
    backward_propagation_3layer ex_X ex_y ex_A1 ex_A2 ex_y (W2 ex_P) (W3 ex_P) = Ok G
    /\ all_zero (dW1 G).
Proof.
  destruct (backward_zero_at_perfect_prediction ex_X ex_y ex_A1 ex_A2 ex_y
              (W2 ex_P) (W3 ex_P) 2 2 1 1 2) as (G & HB & HZ & _).
  - lia.
  - repeat split; reflexivity.
  - reflexivity.
  - reflexivity.
  - intros i j Hi Hj. reflexivity.
  - exists G. split; assumption.
Defined.

(** X12.  With a single sample in the batch the output layer's bias gradient
    is the difference of output and label itself, and its weight gradient is
    that difference times the activation of the layer below. *)
Theorem backward_single_sample (X y A1 A2 A3 W2 W3 : ndarray) (n0 n1 n2 n3 : nat) :
  cache_shape n0 n1 n2 n3 1 X y A1 A2 A3 ->
  shape W2 = (n2, n1) -> shape W3 = (n3, n2) ->
  exists G,
    backward_propagation_3layer X y A1 A2 A3 W2 W3 = Ok G
    /\ shape (db3 G) = (n3, 1%nat)
    /\ (forall i, (i < n3)%nat -> get (db3 G) i 0 = get A3 i 0 - get y i 0)
    /\ (forall i j, (i < n3)%nat -> (j < n2)%nat ->
          get (dW3 G) i j = (get A3 i 0 - get y i 0) * get A2 j 0).
Proof.
  intros HC HW2 HW3.
  pose proof (backward_ok X y A1 A2 A3 W2 W3 n0 n1 n2 n3 1 HC HW2 HW3) as HB.
  destruct HC as (HX & Hy & HA1 & HA2 & HA3). shapes.
  exists (spec_grads X y A1 A2 A3 W2 W3). split; [exact HB|].
  unfold spec_grads. cbv zeta. cbn [dW1 db1 dW2 db2 dW3 db3].
  replace (ncols X) with 1%nat by congruence.
  assert (E : forall i, (i < n3)%nat ->
            get (spec_dZ_out A3 y) i 0 = get A3 i 0 - get y i 0).
  { intros i Hi. unfold spec_dZ_out. rewrite get_build by lia. reflexivity. }
  split; [unfold shape; cbn [spec_db spec_dZ_out nrows ncols build]; congruence|].
  split.
  - intros i Hi. rewrite db_entry
      by (cbn [spec_dZ_out nrows ncols build]; congruence).
    cbn [rsum INR]. rewrite E by assumption. lra.
  - intros i j Hi Hj. rewrite dW_entry
      by (cbn [spec_dZ_out nrows ncols build]; congruence).
    cbn [rsum INR]. rewrite E by assumption. lra.
Qed.

Lemma backward_single_sample_witness :
  exists G,
    backward_propagation_3layer tiny_X (one 1) (one 0) (one 0) (one (/ 2))
      (W2 tiny_Pa) (W3 tiny_Pa) = Ok G
    /\ get (db3 G) 0 0 = get (one (/ 2)) 0 0 - get (one 1) 0 0.
Proof.
  destruct (backward_single_sample tiny_X (one 1) (one 0) (one 0) (one (/ 2))
              (W2 tiny_Pa) (W3 tiny_Pa) 1 1 1 1) as (G & HB & _ & H & _).
  - repeat split; reflexivity.
  - reflexivity.
  - reflexivity.
  - exists G. split; [exact HB | apply H; lia].
Defined.

Lemma map_nth_seq_id (l : list R) :
  map (fun j => nth j l 0) (seq 0 (length l)) = l.
Proof.
  apply (nth_ext _ _ 0 0).
  - now rewrite length_map, length_seq.
  - intros n Hn. rewrite length_map, length_seq in Hn.
    rewrite (nth_indep _ 0 (nth 0 l 0)) by (rewrite length_map, length_seq; exact Hn).
    rewrite (map_nth (fun j => nth j l 0) (seq 0 (length l)) O n).
    now rewrite seq_nth.
Qed.

(** A well-formed array is the array of its entries. *)
Lemma build_get_wf (A : ndarray) :
  wf A -> build (nrows A) (ncols A) (fun i j => get A i j) = A.
Proof.
  destruct A as [r c d]. unfold wf, build, get. cbn [nrows ncols data].
  intros [Hlen Hrows]. f_equal. subst r.
  apply (nth_ext _ _ [] []).
  - now rewrite length_map, length_seq.
  - intros n Hn. rewrite length_map, length_seq in Hn.
    rewrite (nth_indep _ [] (map (fun j => nth j (nth 0 d []) 0) (seq 0 c)))
      by (rewrite length_map, length_seq; exact Hn).
    rewrite (map_nth (fun i => map (fun j => nth j (nth i d []) 0) (seq 0 c))
               (seq 0 (length d)) O n).
    rewrite seq_nth by exact Hn. cbn [Nat.add].
    assert (Hc : length (nth n d []) = c).
    { rewrite Forall_forall in Hrows. apply Hrows. now apply nth_In. }
    rewrite <- Hc. apply map_nth_seq_id.
Qed.

Lemma step_zero (W dW : ndarray) : wf W -> spec_step 0 W dW = W.
Proof.
  intros H. transitivity (build (nrows W) (ncols W) (fun i j => get W i j)).
  - unfold spec_step. apply build_ext. intros i j Hi Hj. lra.
  - now apply build_get_wf.
Qed.

(** X14.  On well-formed parameters and gradients of matching shapes the
    update with the learning rate 0 returns the parameters it was given. *)
Theorem update_rate_zero_is_identity (P : params) (G : grads) (n0 n1 n2 n3 : nat) :
  params_shape n0 n1 n2 n3 P -> grads_shape n0 n1 n2 n3 G -> params_wf P ->
  update_parameters_3layer P G 0 = Ok P.
Proof.
  intros HP HG (F1 & F2 & F3 & F4 & F5 & F6).
  destruct P as [w1 c1 w2 c2 w3 c3]. cbn [W1 b1 W2 b2 W3 b3] in *.
  rewrite (update_ok _ G 0 n0 n1 n2 n3 HP HG).
  unfold spec_update. cbn [W1 b1 W2 b2 W3 b3].
  now rewrite !step_zero.
Qed.

Lemma update_rate_zero_is_identity_witness :
  update_parameters_3layer ex_P ex_G 0 = Ok ex_P.
Proof.
  apply (update_rate_zero_is_identity ex_P ex_G 2 2 1 1).
  - repeat split; reflexivity.
  - repeat split; reflexivity.
  - unfold params_wf, wf. cbn. repeat split; repeat constructor.
Defined.

(** ** Further properties of training *)

(** The run of the trainer on inputs of matching shapes. *)
Lemma train_run (X y : ndarray) (n_h1 n_h2 : Z) (alpha : R) (epochs : Z) (g : rng)
    (n0 n3 m : nat) :
  shape X = (n0, m) -> shape y = (n3, m) -> (0 <= n_h1)%Z -> (0 <= n_h2)%Z ->
  exists P0 g' s,
    initialize_parameters_3layer (Z.of_nat n0) n_h1 n_h2 (Z.of_nat n3) g = Ok (P0, g')
    /\ params_shape n0 (Z.to_nat n_h1) (Z.to_nat n_h2) n3 P0
    /\ train_three_layer X y n_h1 n_h2 alpha epochs g
       = Ok (ls_params s, ls_costs s, ls_stdout s, g')
    /\ loop_inv X y alpha P0 n0 (Z.to_nat n_h1) (Z.to_nat n_h2) n3 (Z.to_nat epochs) s.
Proof.
  intros HX Hy H1 H2.
  destruct (initialize_ok (Z.of_nat n0) n_h1 n_h2 (Z.of_nat n3) g)
    as (P0 & g' & HI & HS & _); [lia .. |].
  rewrite !Nat2Z.id in HS.
  destruct (loop_ok X y alpha P0 n0 _ _ n3 m (Z.to_nat epochs) HS HX Hy)
    as (s & Hrun & Hinv).
  exists P0, g', s. split; [exact HI|]. split; [exact HS|]. split; [|exact Hinv].
  unfold train_three_layer. cbv zeta.
  apply shape_inv in HX, Hy. destruct HX as [-> _]. destruct Hy as [-> _].
  rewrite HI. cbn [bind]. rewrite Hrun. reflexivity.
Qed.

Lemma params_after_shape (X y : ndarray) (alpha : R) (P0 : params)
    (n0 n1 n2 n3 m : nat) (k : nat) :
  params_shape n0 n1 n2 n3 P0 -> shape X = (n0, m) -> shape y = (n3, m) ->
  exists Pk, params_after X y alpha P0 k = Ok Pk /\ params_shape n0 n1 n2 n3 Pk.
Proof.
  intros HP HX Hy.
  destruct (loop_ok X y alpha P0 n0 n1 n2 n3 m k HP HX Hy) as (s & _ & Hp & Hs & _).
  exists (ls_params s). split; assumption.
Qed.

(** X15.  With an epoch count that is not positive the loop body never
    runs: the trainer returns the parameters initialization produced and an
    empty cost history and prints nothing, whatever the shape of the labels. *)
Theorem train_without_epochs (X y : ndarray) (n_h1 n_h2 : Z) (alpha : R) (epochs : Z)
    (g : rng) :
  (epochs <= 0)%Z -> (0 <= n_h1)%Z -> (0 <= n_h2)%Z ->
  exists P0 g',
    initialize_parameters_3layer (Z.of_nat (nrows X)) n_h1 n_h2 (Z.of_nat (nrows y)) g
    = Ok (P0, g')
    /\ train_three_layer X y n_h1 n_h2 alpha epochs g = Ok (P0, [], [], g').
Proof.
  intros He H1 H2.
  destruct (initialize_ok (Z.of_nat (nrows X)) n_h1 n_h2 (Z.of_nat (nrows y)) g)
    as (P0 & g' & HI & _); [lia .. |].
  exists P0, g'. split; [exact HI|].
  unfold train_three_layer. cbv zeta. rewrite HI. cbn [bind].
  replace (Z.to_nat epochs) with 0%nat by lia. reflexivity.
Qed.

Lemma train_without_epochs_witness :
  exists P0 g', train_three_layer ex_X ex_y 4 3 (/ 100) 0 rng0 = Ok (P0, [], [], g').
Proof.
  destruct (train_without_epochs ex_X ex_y 4 3 (/ 100) 0 rng0) as (P0 & g' & _ & HT);
    [lia | lia | lia |].
  exists P0, g'. exact HT.
Defined.

(** X16.  With a negative number of hidden units in either hidden layer the
    trainer raises [ValueError], whatever the epoch count. *)
Theorem train_rejects_negative_hidden_width (X y : ndarray) (n_h1 n_h2 : Z) (alpha : R)
    (epochs : Z) (g : rng) :
  (n_h1 < 0 \/ n_h2 < 0)%Z ->
  train_three_layer X y n_h1 n_h2 alpha epochs g = Raise ValueError.
Proof.
  intros H. unfold train_three_layer. cbv zeta.
  rewrite initialize_neg by lia. reflexivity.
Qed.

Lemma train_rejects_negative_hidden_width_witness :
  train_three_layer ex_X ex_y (-1) 3 (/ 100) 3000 rng0 = Raise ValueError.
Proof. apply train_rejects_negative_hidden_width. lia. Defined.

(** X17.  When input and labels differ in their number of columns, neither
    number being 1, and at least one epoch is asked for, the trainer raises
    [ValueError]: the cost of the first epoch cannot be computed. *)
Theorem train_rejects_column_mismatch (X y : ndarray) (n_h1 n_h2 : Z) (alpha : R)
    (epochs : Z) (g : rng) (n0 n3 m m' : nat) :
  shape X = (n0, m) -> shape y = (n3, m') ->
  m' <> m -> m' <> 1%nat -> m <> 1%nat ->
  (0 <= n_h1)%Z -> (0 <= n_h2)%Z -> (1 <= epochs)%Z ->
  train_three_layer X y n_h1 n_h2 alpha epochs g = Raise ValueError.
Proof.
  intros HX Hy Hne Hm' Hm H1 H2 He.
  destruct (initialize_ok (Z.of_nat n0) n_h1 n_h2 (Z.of_nat n3) g)
    as (P0 & g' & HI & HS & _); [lia .. |].
  rewrite !Nat2Z.id in HS.
  pose proof (forward_ok X P0 _ _ _ _ m HS HX) as HF.
  pose proof (shape_spec_A3 X P0 _ _ _ _ _ HS HX) as HA3.
  unfold train_three_layer. cbv zeta.
  pose proof HX as HX'. pose proof Hy as Hy'.
  apply shape_inv in HX', Hy', HA3.
  destruct HX' as [HXr _]. destruct Hy' as [Hyr Hyc]. destruct HA3 as [HAr HAc].
  rewrite HXr, Hyr, HI. cbn [bind].
  destruct (Z.to_nat epochs) as [|n] eqn:En; [lia|].
  cbn [seq for_range]. unfold epoch_body at 1. cbv zeta. cbn [ls_params].
  rewrite HF. cbn [bind].
  unfold compute_cost_3layer, mul.
  rewrite (broadcast2_mismatch Rmult y (np_log (spec_A3 X P0))); [reflexivity|].
  right. unfold np_log, map_arr. cbn [nrows ncols build]. rewrite Hyc, HAc.
  repeat split; assumption.
Qed.

Lemma train_rejects_column_mismatch_witness :
  train_three_layer ex_X (mk_ndarray 1 3 [[1; 0; 1]]) 4 3 (/ 100) 3000 rng0
  = Raise ValueError.
Proof.
  apply (train_rejects_column_mismatch ex_X (mk_ndarray 1 3 [[1; 0; 1]]) 4 3 (/ 100)
           3000 rng0 2 1 2 3); try reflexivity; lia.
Defined.

Lemma cost_of_nonneg (X y : ndarray) (P : params) (n0 n1 n2 n3 m : nat) (c : R) :
  params_shape n0 n1 n2 n3 P -> shape X = (n0, m) -> shape y = (n3, m) ->
  unit_entries y -> cost_of X y P = Ok c -> 0 <= c.
Proof.
  intros HP HX Hy Hu Hc.
  pose proof (shape_spec_A3 X P _ _ _ _ _ HP HX) as HA3.
  assert (S3 : shape (spec_Z3 X P) = (n3, m)) by exact HA3.
  apply shape_inv in HA3, Hy, S3.
  destruct HA3 as [HAr HAc]. destruct Hy as [Hyr Hyc]. destruct S3 as [S3r S3c].
  unfold cost_of in Hc. rewrite (forward_ok X P n0 n1 n2 n3 m HP HX) in Hc.
  cbn [bind] in Hc.
  destruct (cost_nonneg_any (spec_A3 X P) y) as (c' & Hc' & Hpos);
    [congruence | congruence | | exact Hu |].
  - intros i j Hi Hj. unfold spec_A3, spec_sigmoid.
    rewrite get_build by congruence. apply logistic_range.
  - rewrite Hc' in Hc. inversion Hc. subst. exact Hpos.
Qed.

(** X20.  When the weights and the bias of the output layer are all zero,
    the forward pass predicts 1/2 for every sample whatever the input, and
    the cost of that prediction is [ln 2] whatever the labels. *)
Theorem zero_output_layer_predicts_half (X y : ndarray) (P : params)
    (n0 n1 n2 m : nat) :
  params_shape n0 n1 n2 1 P -> shape X = (n0, m) -> shape y = (1%nat, m) ->
  (1 <= m)%nat -> all_zero (W3 P) -> all_zero (b3 P) ->
  exists A1 A2 A3,
    forward_propagation_3layer X P = Ok (A1, A2, A3)
    /\ (forall j, (j < m)%nat -> get A3 0 j = / 2)
    /\ compute_cost_3layer A3 y = Ok (ln 2).
Proof.
  intros HP HX Hy Hm HW Hb.
  pose proof (forward_ok X P n0 n1 n2 1 m HP HX) as HF.
  pose proof (shape_spec_A2 X P _ _ _ _ _ HP HX) as HA2.
  pose proof (shape_spec_A3 X P _ _ _ _ _ HP HX) as HA3.
  assert (S3 : shape (spec_Z3 X P) = (1%nat, m)) by exact HA3.
  pose proof HP as (_ & _ & _ & _ & HW3 & Hb3).
  assert (Hhalf : forall j, (j < m)%nat -> get (spec_A3 X P) 0 j = / 2).
  { intros j Hj. apply shape_inv in S3, HW3, Hb3, HA2.
    destruct S3 as [S3r S3c]. destruct HW3 as [W3r W3c].
    destruct Hb3 as [b3r b3c]. destruct HA2 as [A2r A2c].
    unfold spec_A3, spec_sigmoid. rewrite get_build by lia.
    unfold spec_Z3, spec_linear. rewrite get_build by lia.
    rewrite rsum_zero by (intros k Hk; rewrite HW by lia; lra).
    rewrite Hb by lia.
    replace (- (0 + 0)) with 0 by lra. rewrite exp_0. lra. }
  exists (spec_A1 X P), (spec_A2 X P), (spec_A3 X P).
  split; [exact HF|]. split; [exact Hhalf|].
  rewrite (cost_ok (spec_A3 X P) y m HA3 Hy). f_equal. unfold spec_cost.
  rewrite (rsum_ext m _ (fun _ => ln (/ 2))).
  - rewrite rsum_const, ln_Rinv by lra.
    assert (INR m <> 0) by (apply not_0_INR; lia). field. assumption.
  - intros j Hj. rewrite Hhalf by assumption.
    replace (1 - / 2) with (/ 2) by lra. lra.
Qed.

Lemma zero_output_layer_predicts_half_witness :
  exists A1 A2 A3,
    forward_propagation_3layer tiny_X
      (mk_params (one 1) (one 0) (one 1) (one 0) (one 0) (one 0)) = Ok (A1, A2, A3)
    /\ compute_cost_3layer A3 (one 1) = Ok (ln 2).
Proof.
  destruct (zero_output_layer_predicts_half tiny_X (one 1)
              (mk_params (one 1) (one 0) (one 1) (one 0) (one 0) (one 0)) 1 1 1 1)
    as (A1 & A2 & A3 & HF & _ & HC).
  - repeat split; reflexivity.
  - reflexivity.
  - reflexivity.
  - lia.
  - intros i j Hi Hj. cbn in Hi, Hj.
    destruct i as [|i]; [|lia]. destruct j as [|j]; [reflexivity | lia].
  - intros i j Hi Hj. cbn in Hi, Hj.
    destruct i as [|i]; [|lia]. destruct j as [|j]; [reflexivity | lia].
  - exists A1, A2, A3. split; assumption.
Defined.

(** ** The data cell and the run cell *)

Lemma length_row_slice (X : ndarray) (i : nat) : length (row_slice X i) = ncols X.
Proof. unfold row_slice. now rewrite length_map, length_seq. Qed.

Lemma nth_row_slice (X : ndarray) (i j : nat) :
  (j < ncols X)%nat -> nth j (row_slice X i) 0 = get X i j.
Proof.
  intros Hj. unfold row_slice.
  rewrite (nth_indep _ 0 (get X i 0)) by (rewrite length_map, length_seq; exact Hj).
  rewrite (map_nth (fun j0 => get X i j0) (seq 0 (ncols X)) O j).
  now rewrite seq_nth.
Qed.

Lemma nth_map_seq (f : nat -> R) (n j : nat) :
  (j < n)%nat -> nth j (map f (seq 0 n)) 0 = f j.
Proof.
  intros Hj.
  rewrite (nth_indep _ 0 (f O)) by (rewrite length_map, length_seq; exact Hj).
  rewrite (map_nth f (seq 0 n) O j). now rewrite seq_nth.
Qed.

Lemma add_rows (X : ndarray) :
  add_1d (row_slice X 0) (row_slice X 1)
  = Ok (map (fun j => get X 0 j + get X 1 j) (seq 0 (ncols X))).
Proof.
  unfold add_1d. rewrite !length_row_slice, bdim_same. cbn [bind]. f_equal.
  apply map_ext_in. intros j Hj. apply in_seq in Hj.
  rewrite !bidx_lt by lia. rewrite !nth_row_slice by lia. reflexivity.
Qed.

(** The labels as a row: entry [j] is 1 when [f j] is positive, else 0. *)
Lemma reshape_labels (f : nat -> R) (c : nat) :
  reshape_1d (where_gt0 (map f (seq 0 c))) 1 c
  = Ok (build 1 c (fun _ j => if Rlt_dec 0 (f j) then 1 else 0)).
Proof.
  unfold reshape_1d, where_gt0. rewrite !length_map, length_seq.
  replace (c =? 1 * c)%nat with true by (symmetry; apply Nat.eqb_eq; lia).
  f_equal. apply build_ext. intros i j Hi Hj.
  assert (i = 0%nat) by lia. subst i. cbn [Nat.mul Nat.add].
  rewrite map_map. now rewrite nth_map_seq.
Qed.

Lemma generate_data_value (g : rng) :
  generate_data g
  = Ok (build 2 400 (fun i j => g (i * 400 + j)%nat),
        build 1 400 (fun _ j =>
          if Rlt_dec 0 (g j + g (400 + j)%nat) then 1 else 0),
        fun k => g (800 + k)%nat).
Proof.
  unfold generate_data, randn.
  change ((2 <? 0)%Z || (400 <? 0)%Z) with false. cbv iota.
  change (Z.to_nat 2) with 2%nat.
  set (c := Z.to_nat 400).
  assert (Ec : c = 400%nat) by (subst c; reflexivity).
  clearbody c. subst c. cbn [bind].
  rewrite add_rows. cbn [bind ncols build].
  rewrite reshape_labels. cbn [bind].
  rewrite (build_ext 1 400 _
             (fun _ j => if Rlt_dec 0 (g j + g (400 + j)%nat) then 1 else 0)).
  - reflexivity.
  - intros i j Hi Hj. rewrite !get_build by lia. reflexivity.
Qed.

(** X21.  For every state of the generator the data cell succeeds: the
    input has shape (2, 400) and holds the first 800 samples row by row, the
    labels have shape (1, 400), the label of a sample is 1 when the sum of its
    two features is positive and 0 otherwise, and the generator is left 800
    samples further. *)
Theorem data_cell (g : rng) :
  exists X y g',
    generate_data g = Ok (X, y, g')
    /\ shape X = (2%nat, 400%nat) /\ shape y = (1%nat, 400%nat)
    /\ (forall i j, (i < 2)%nat -> (j < 400)%nat -> get X i j = g (i * 400 + j)%nat)
    /\ (forall j, (j < 400)%nat ->
          get y 0 j = (if Rlt_dec 0 (get X 0 j + get X 1 j) then 1 else 0)
          /\ (get y 0 j = 0 \/ get y 0 j = 1))
    /\ (forall k, g' k = g (800 + k)%nat).
Proof.
  eexists. eexists. eexists. split; [apply generate_data_value|].
  split; [reflexivity|]. split; [reflexivity|]. split; [|split].
  - intros i j Hi Hj. now rewrite get_build.
  - intros j Hj. rewrite !get_build by lia.
    replace (0 * 400 + j)%nat with j by lia.
    replace (1 * 400 + j)%nat with (400 + j)%nat by lia.
    split; [reflexivity|].
    destruct (Rlt_dec 0 (g j + g (400 + j)%nat)); [right | left]; reflexivity.
  - intros k. reflexivity.
Qed.

Lemma map_fst_combine {A B : Type} (l : list A) (l' : list B) :
  length l = length l' -> map fst (combine l l') = l.
Proof.
  revert l'. induction l as [|a l IH]; intros [|b l'] H; cbn in *; try discriminate.
  - reflexivity.
  - f_equal. apply IH. now inversion H.
Qed.

Lemma map_snd_combine {A B : Type} (l : list A) (l' : list B) :
  length l = length l' -> map snd (combine l l') = l'.
Proof.
  revert l'. induction l as [|a l IH]; intros [|b l'] H; cbn in *; try discriminate.
  - reflexivity.
  - f_equal. apply IH. now inversion H.
Qed.

Lemma recorded_costs_nonneg (X y : ndarray) (alpha : R) (P0 : params)
    (n0 n1 n2 n3 m : nat) (l : list nat) (costs : list R) :
  params_shape n0 n1 n2 n3 P0 -> shape X = (n0, m) -> shape y = (n3, m) ->
  unit_entries y ->
  Forall2 (fun i c => cost_at X y alpha P0 i = Ok c) l costs ->
  Forall (fun c => 0 <= c) costs.
Proof.
  intros HS HX Hy Hu H. induction H as [|i c l l' Hic _ IH]; constructor; [|exact IH].
  unfold cost_at in Hic.
  destruct (params_after_shape X y alpha P0 n0 n1 n2 n3 m i HS HX Hy) as (Pi & HPi & HSi).
  rewrite HPi in Hic. cbn [bind] in Hic.
  exact (cost_of_nonneg X y Pi _ _ _ _ _ c HSi HX Hy Hu Hic).
Qed.

(** X22.  For every state of the generator the run cell succeeds: it
    returns parameters of the shapes of the widths 2, 4, 3, 1 and thirty
    costs, none of them negative, and prints thirty lines, for the epochs
    0, 100, ..., 2900, each with the cost at the same place of the history. *)
Theorem run_cell (g : rng) :
  exists P costs out g',
    run_model g = Ok (P, costs, out, g')
    /\ params_shape 2 4 3 1 P
    /\ length costs = 30%nat
    /\ map fst out = map (fun k => 100 * k)%nat (seq 0 30)
    /\ map snd out = costs
    /\ Forall (fun c => 0 <= c) costs.
Proof.
  unfold run_model. rewrite generate_data_value. cbn [bind].
  set (X := build 2 400 _). set (y := build 1 400 _). set (g1 := fun k => g _).
  assert (HX : shape X = (2%nat, 400%nat)) by reflexivity.
  assert (Hy : shape y = (1%nat, 400%nat)) by reflexivity.
  destruct (train_run X y 4 3 (/ 100) 3000 g1 2 1 400 HX Hy)
    as (P0 & g' & s & _ & HS & HT & _ & Hshape & Hcosts & Hout); [lia | lia |].
  change (Z.to_nat 4) with 4%nat in *. change (Z.to_nat 3) with 3%nat in *.
  rewrite sampled_every_100 in Hcosts, Hout.
  assert (E30 : ((Z.to_nat 3000 + 99) / 100 = 30)%nat) by reflexivity.
  rewrite E30 in Hcosts, Hout.
  assert (Hlen : length (map (fun k => 100 * k)%nat (seq 0 30)) = length (ls_costs s))
    by (eapply Forall2_length; exact Hcosts).
  exists (ls_params s), (ls_costs s), (ls_stdout s), g'.
  split; [exact HT|]. split; [exact Hshape|].
  split; [rewrite <- Hlen; now rewrite length_map, length_seq|].
  split; [rewrite Hout; now apply map_fst_combine|].
  split; [rewrite Hout; now apply map_snd_combine|].
  refine (recorded_costs_nonneg X y (/ 100) P0 2 4 3 1 400 _ _ HS HX Hy _ Hcosts).
  intros i j Hi Hj. subst y. rewrite get_build by assumption.
  destruct (Rlt_dec 0 _); lra.
Qed.

(** ** Shape errors of the backward pass and of the update *)

Lemma sub_mismatch (A B : ndarray) :
  cannot_broadcast A B -> sub A B = Raise ValueError.
Proof. intros H. unfold sub. now apply broadcast2_mismatch. Qed.

Lemma scalar_mul_cannot_broadcast (alpha : R) (W dW : ndarray) :
  cannot_broadcast W dW -> cannot_broadcast W (scalar_mul alpha dW).
Proof. intros H. exact H. Qed.

(** X23.  When the output in the cache and the labels cannot be broadcast
    against each other, or when the number of columns of the output differs
    from that of the second hidden activation, the backward pass raises
    [ValueError]. *)
Theorem backward_rejects_shape_mismatch (X y A1 A2 A3 W2 W3 : ndarray) :
  cannot_broadcast A3 y \/ (shape A3 = shape y /\ ncols A3 <> ncols A2) ->
  backward_propagation_3layer X y A1 A2 A3 W2 W3 = Raise ValueError.
Proof.
  intros [H|[Hs Hc]]; unfold backward_propagation_3layer; cbv zeta.
  - now rewrite sub_mismatch.
  - unfold shape in Hs. inversion Hs as [[Hr Hcc]].
    rewrite (dZ_out_ok A3 y) by congruence. cbn [bind].
    unfold dot at 1. cbn [spec_dZ_out transpose nrows ncols build].
    apply Nat.eqb_neq in Hc. rewrite Hc. reflexivity.
Qed.

Lemma backward_rejects_shape_mismatch_witness :
  backward_propagation_3layer ex_X (mk_ndarray 1 3 [[1; 0; 1]]) ex_A1 ex_A2 ex_A3
    (W2 ex_P) (W3 ex_P) = Raise ValueError.
Proof.
  apply backward_rejects_shape_mismatch. left. right. cbn. lia.
Defined.

(** X24.  When one of the six gradients cannot be broadcast against its
    parameter, the update raises [ValueError] and returns no parameters. *)
Theorem update_rejects_shape_mismatch (P : params) (G : grads) (alpha : R) :
  cannot_broadcast (W1 P) (dW1 G) \/ cannot_broadcast (b1 P) (db1 G)
  \/ cannot_broadcast (W2 P) (dW2 G) \/ cannot_broadcast (b2 P) (db2 G)
  \/ cannot_broadcast (W3 P) (dW3 G) \/ cannot_broadcast (b3 P) (db3 G) ->
  update_parameters_3layer P G alpha = Raise ValueError.
Proof.
  intros H. unfold update_parameters_3layer.
  destruct (sub (W1 P) (scalar_mul alpha (dW1 G))) as [a1|[]] eqn:E1; [|reflexivity].
  destruct H as [H|H];
    [rewrite (sub_mismatch _ _ (scalar_mul_cannot_broadcast alpha _ _ H)) in E1;
     discriminate|].
  cbn [bind].
  destruct (sub (b1 P) (scalar_mul alpha (db1 G))) as [a2|[]] eqn:E2; [|reflexivity].
  destruct H as [H|H];
    [rewrite (sub_mismatch _ _ (scalar_mul_cannot_broadcast alpha _ _ H)) in E2;
     discriminate|].
  cbn [bind].
  destruct (sub (W2 P) (scalar_mul alpha (dW2 G))) as [a3|[]] eqn:E3; [|reflexivity].
  destruct H as [H|H];
    [rewrite (sub_mismatch _ _ (scalar_mul_cannot_broadcast alpha _ _ H)) in E3;
     discriminate|].
  cbn [bind].
  destruct (sub (b2 P) (scalar_mul alpha (db2 G))) as [a4|[]] eqn:E4; [|reflexivity].
  destruct H as [H|H];
    [rewrite (sub_mismatch _ _ (scalar_mul_cannot_broadcast alpha _ _ H)) in E4;
     discriminate|].
  cbn [bind].
  destruct (sub (W3 P) (scalar_mul alpha (dW3 G))) as [a5|[]] eqn:E5; [|reflexivity].
  destruct H as [H|H];
    [rewrite (sub_mismatch _ _ (scalar_mul_cannot_broadcast alpha _ _ H)) in E5;
     discriminate|].
  cbn [bind].
  now rewrite (sub_mismatch _ _ (scalar_mul_cannot_broadcast alpha _ _ H)).
Qed.

Lemma update_rejects_shape_mismatch_witness :
  update_parameters_3layer ex_P
    (mk_grads (dW1 ex_G) (db1 ex_G) (mk_ndarray 1 3 [[1; 1; 1]]) (db2 ex_G)
              (dW3 ex_G) (db3 ex_G)) (/ 100)
  = Raise ValueError.
Proof.
  apply update_rejects_shape_mismatch. right. right. left. right. cbn. lia.
Defined.
